(** * The AIBOS Tesseract OCR service ([ocr-service/main.py])

    A shallow embedding of the two request handlers [perform_ocr]
    ([POST /ocr]) and [ocr_with_layout] ([POST /ocr-with-layout]) and of
    the Python operations they rest on, followed by the properties the
    specification states about them.

    Conventions.
    - A Python [str] is the list of its Unicode code points.
    - A Python [int] is a [Z]; a Python [float] is an IEEE-754 binary64
      value, kept as sign, integer significand and binary exponent.
    - A raised exception is the [Error] of a result type; inside a
      handler it is what the [except Exception] clause receives.
    - The collaborators outside the repository (pdf2image, PIL,
      pytesseract) are calls of a small command language; a [world]
      answers them. *)

From Stdlib Require Import ZArith List Bool Lia Ascii String Sorted Permutation.
From Stdlib Require Import DecimalString DecimalPos DecimalZ SpecFloat.
Import ListNotations.

Set Warnings "-register-all".
Local Open Scope string_scope.
Local Open Scope list_scope.
Local Open Scope Z_scope.

(** ** Results and exceptions *)

(** A [str]: its code points. *)
Definition pystr := list Z.

(** A value, or the exception raised in its place; of an exception the
    handlers read [str(e)] only, which is what [Error] holds. *)
Inductive result (A : Type) : Type :=
| Ok (a : A)
| Error (e : pystr).
Arguments Ok {A} a.
Arguments Error {A} e.

Definition rbind {A B} (r : result A) (k : A -> result B) : result B :=
  match r with
  | Ok a => k a
  | Error e => Error e
  end.

(** The code points of a literal written in ASCII. *)
Fixpoint lit (s : string) : pystr :=
  match s with
  | EmptyString => []
  | String c s' => Z.of_nat (nat_of_ascii c) :: lit s'
  end.

(** ** Python floats *)

Module F64.

(** A finite binary64 value: (-1)^[fneg] * [fmant] * 2^[fexp].  Zero
    keeps its sign, as in IEEE-754. *)
Record float := mk { fneg : bool; fmant : Z; fexp : Z }.

Definition prec : Z := 53.
Definition emin : Z := -1074.
Definition emax : Z := 1024.

Definition zero (s : bool) : float := mk s 0 0.

(** [num / den] rounded to the nearest integer, ties to even
    ([0 <= num], [0 < den]). *)
Definition div_rne (num den : Z) : Z :=
  let q := num / den in
  let r := num mod den in
  match 2 * r ?= den with
  | Lt => q
  | Gt => q + 1
  | Eq => if Z.even q then q else q + 1
  end.

(** The fraction [a / (b * 2^e)] as numerator and denominator. *)
Definition scaled (a b e : Z) : Z * Z :=
  if 0 <=? e then (a, b * 2 ^ e) else (a * 2 ^ (- e), b).

(** The exponent [e] at which [a / (b * 2^e)] lies in [2^52, 2^53),
    for [0 < a] and [0 < b]. *)
Definition norm_exp (a b : Z) : Z :=
  let e0 := Z.log2 a - Z.log2 b - prec in
  let '(n, d) := scaled a b e0 in
  if 2 ^ prec * d <=? n then e0 + 1 else e0.

(** The binary64 value nearest to [a / b] for [0 < a], [0 < b]
    (round to nearest, ties to even; subnormals below 2^-1022),
    or [OverflowError] when that value is 2^1024 or more. *)
Definition nearest (s : bool) (a b : Z) : result float :=
  let e := Z.max emin (norm_exp a b) in
  let '(n, d) := scaled a b e in
  let m := div_rne n d in
  let '(m', e') := if m =? 2 ^ prec then (2 ^ (prec - 1), e + 1) else (m, e) in
  if emax - prec <? e'
  then Error (lit "integer division result too large for a float")
  else Ok (mk s m' e').

(** [a / b] on Python ints ([long_true_divide]): correctly rounded. *)
Definition int_truediv (a b : Z) : result float :=
  if b =? 0 then Error (lit "division by zero")
  else
    let s := xorb (a <? 0) (b <? 0) in
    if a =? 0 then Ok (zero s)
    else nearest s (Z.abs a) (Z.abs b).

(** [x * 10^nd] rounded to the nearest integer, ties to even, on the
    exact value of [x]: the digits [float.__round__] obtains from the
    correctly rounded decimal conversion. *)
Definition round_digits (x : float) (nd : Z) : Z :=
  let '(n, d) := scaled (10 ^ nd * fmant x) 1 (- fexp x) in
  div_rne n d.

(** The float nearest to the decimal [h * 10^-nd] ([0 <= h]), with
    sign [s]: what reading the decimal back gives. *)
Definition of_decimal (s : bool) (h nd : Z) : result float :=
  if h =? 0 then Ok (zero s) else nearest s h (10 ^ nd).

(** [round(x, nd)] for [0 <= nd]: the float nearest to the decimal
    with [nd] fractional digits nearest to [x]. *)
Definition round (x : float) (nd : Z) : result float :=
  of_decimal (fneg x) (round_digits x nd) nd.

(** The same value in the Standard Library's IEEE-754 model. *)
Definition to_spec (x : float) : spec_float :=
  match fmant x with
  | Zpos m => S754_finite (fneg x) m (fexp x)
  | _ => S754_zero (fneg x)
  end.

Definition of_int_spec (a : Z) : spec_float :=
  binary_normalize prec emax a 0 false.

(** Whether [int_truediv a b] is the quotient [SFdiv] computes. *)
Definition same_as_ieee (a b : Z) : bool :=
  match int_truediv a b with
  | Ok x =>
      match to_spec x, SFdiv prec emax (of_int_spec a) (of_int_spec b) with
      | S754_finite s m e, S754_finite s' m' e' =>
          Bool.eqb s s' && Pos.eqb m m' && Z.eqb e e'
      | S754_zero s, S754_zero s' => Bool.eqb s s'
      | _, _ => false
      end
  | Error _ => false
  end.

End F64.

Import F64.

(** ** Python values *)

(** The values the handlers build and hand to the JSON encoder. *)
Inductive value : Type :=
| VNone
| VBool (b : bool)
| VInt (i : Z)
| VFloat (x : float)
| VStr (s : pystr)
| VList (l : list value)
| VDict (items : list (string * value)).

(** [d[key]] on a dict literal, [None] when the key is absent. *)
Fixpoint get (key : string) (items : list (string * value)) : option value :=
  match items with
  | [] => None
  | (k, v) :: rest => if String.eqb k key then Some v else get key rest
  end.

Definition field (key : string) (v : value) : option value :=
  match v with
  | VDict items => get key items
  | _ => None
  end.

Definition keys (v : value) : list string :=
  match v with
  | VDict items => map fst items
  | _ => []
  end.

Definition of_option (o : option pystr) : value :=
  match o with
  | Some s => VStr s
  | None => VNone
  end.

(** [len(l)] *)
Definition len {A} (l : list A) : Z := Z.of_nat (List.length l).

(** [sum(l)] on ints *)
Definition sum (l : list Z) : Z := fold_left Z.add l 0.

(** [l[i]] for [0 <= i] *)
Definition getitem {A} (l : list A) (i : nat) : result A :=
  match nth_error l i with
  | Some x => Ok x
  | None => Error (lit "list index out of range")
  end.

(** [range(n)] *)
Definition range (n : nat) : list nat := seq 0 n.

(** [str(i)] on an int *)
Definition str_of_int (i : Z) : pystr := lit (NilZero.string_of_int (Z.to_int i)).

(** [round(v, nd)]: an int is returned as it is for [0 <= nd]. *)
Definition round (v : value) (nd : Z) : result value :=
  match v with
  | VInt i => Ok (VInt i)
  | VFloat x => rbind (F64.round x nd) (fun y => Ok (VFloat y))
  | _ => Error (lit "type doesn't define __round__ method")
  end.

(** ** Strings *)

Section Strings.

(** [str.isspace] on one code point: the interpreter's Unicode table. *)
Variable isspace : Z -> bool.

Fixpoint lstrip (s : pystr) : pystr :=
  match s with
  | [] => []
  | c :: s' => if isspace c then lstrip s' else s
  end.

Definition rstrip (s : pystr) : pystr := rev (lstrip (rev s)).

(** [s.strip()] *)
Definition strip (s : pystr) : pystr := rstrip (lstrip s).

(** [s.split()]: the maximal runs of non-whitespace, [word] being the
    run read so far, last character first. *)
Fixpoint split_from (word : pystr) (s : pystr) : list pystr :=
  match s with
  | [] => match word with [] => [] | _ => [rev word] end
  | c :: s' =>
      if isspace c
      then match word with
           | [] => split_from [] s'
           | _ => rev word :: split_from [] s'
           end
      else split_from (c :: word) s'
  end.

Definition split (s : pystr) : list pystr := split_from [] s.

End Strings.

(** [s.split(sep)] for a separator of one character, [seg] being the
    segment read so far, last character first. *)
Fixpoint split_on_from (sep : Z) (seg : pystr) (s : pystr) : list pystr :=
  match s with
  | [] => [rev seg]
  | c :: s' =>
      if c =? sep then rev seg :: split_on_from sep [] s'
      else split_on_from sep (c :: seg) s'
  end.

Definition split_on (sep : Z) (s : pystr) : list pystr := split_on_from sep [] s.

(** Truth value of a [str] *)
Definition truthy (s : pystr) : bool :=
  match s with
  | [] => false
  | _ => true
  end.

Definition newline : Z := 10.

(** The characters of ['$£€¥'] *)
Definition currency_symbols : pystr := [36; 163; 8364; 165].

Definition str_eqb (a b : pystr) : bool :=
  if list_eq_dec Z.eq_dec a b then true else false.

(** [a == b] where [a] may be [None] and [b] is a [str] *)
Definition opt_str_eqb (a : option pystr) (b : pystr) : bool :=
  match a with
  | Some s => str_eqb s b
  | None => false
  end.

(** ** The collaborators *)

Definition bytes := list Byte.byte.

(** A decoded [PIL.Image]: [size] is (width, height), two ints that
    Pillow holds as C ints. *)
Record Image := { size : Z * Z; mode : pystr; pixels : bytes }.

(** The dict [pytesseract.image_to_data] returns with
    [output_type=Output.DICT]: one list per column, of which the
    handlers read these seven. *)
Module Data.
Record t := mk {
  level : list Z;
  left : list Z;
  top : list Z;
  width : list Z;
  height : list Z;
  conf : list Z;
  text : list pystr
}.
End Data.

(** The upload as FastAPI hands it over; [contents] is what
    [await file.read()] returns. *)
Record UploadFile := {
  filename : option pystr;
  content_type : option pystr;
  contents : bytes
}.

(** The calls that leave the repository. *)
Inductive call : Type :=
| convert_from_bytes (pdf_file : bytes) (first_page last_page : Z)
| Image_open (fp : bytes)
| image_to_string (image : Image) (config : pystr)
| image_to_data (image : Image) (config : pystr).  (* output_type=Output.DICT *)

Definition reply (c : call) : Type :=
  match c with
  | convert_from_bytes _ _ _ => list Image
  | Image_open _ => Image
  | image_to_string _ _ => pystr
  | image_to_data _ _ => Data.t
  end.

(** A computation that returns, raises, or makes a call and goes on
    with its answer (a value, or the exception the call raised). *)
Inductive prog (A : Type) : Type :=
| Ret (a : A)
| Raise (e : pystr)
| Do (c : call) (k : result (reply c) -> prog A).
Arguments Ret {A} a.
Arguments Raise {A} e.
Arguments Do {A} c k.

Fixpoint bind {A B} (p : prog A) (f : A -> prog B) : prog B :=
  match p with
  | Ret a => f a
  | Raise e => Raise e
  | Do c k => Do c (fun r => bind (k r) f)
  end.

Definition lift {A} (r : result A) : prog A :=
  match r with
  | Ok a => Ret a
  | Error e => Raise e
  end.

Definition perform (c : call) : prog (reply c) := Do c lift.

(** [try: p except Exception as e: h e] *)
Fixpoint try_except {A} (p : prog A) (h : pystr -> prog A) : prog A :=
  match p with
  | Ret a => Ret a
  | Raise e => h e
  | Do c k => Do c (fun r => try_except (k r) h)
  end.

Notation "x <- p ;; q" := (bind p (fun x => q))
  (at level 61, p at next level, right associativity).
Notation "x <-? r ;; q" := (rbind r (fun x => q))
  (at level 61, r at next level, right associativity).

(** A world answers every call. *)
Definition world := forall c : call, result (reply c).

Definition failure {A} (r : result A) : option pystr :=
  match r with
  | Ok _ => None
  | Error e => Some e
  end.

Fixpoint outcome {A} (w : world) (p : prog A) : result A :=
  match p with
  | Ret a => Ok a
  | Raise e => Error e
  | Do c k => outcome w (k (w c))
  end.

(** The calls made, in order, each with the exception it raised. *)
Fixpoint trace {A} (w : world) (p : prog A) : list (call * option pystr) :=
  match p with
  | Ret _ => []
  | Raise _ => []
  | Do c k => (c, failure (w c)) :: trace w (k (w c))
  end.

Definition calls {A} (w : world) (p : prog A) : list call := map fst (trace w p).

(** What a handler hands to FastAPI: the [JSONResponse] it returns
    (status 200) or the [HTTPException] it raises, which FastAPI
    answers with that status code and the body [{"detail": detail}]. *)
Inductive response : Type :=
| JSONResponse (content : value)
| HTTPException (status_code : Z) (detail : value).

Definition status (r : response) : Z :=
  match r with
  | JSONResponse _ => 200
  | HTTPException status_code _ => status_code
  end.

Definition body (r : response) : value :=
  match r with
  | JSONResponse content => content
  | HTTPException _ detail => VDict [("detail", detail)]
  end.

(** ** The handlers *)

Definition not_sentinel (c : Z) : bool := negb (c =? -1).

(** Lines 79-80: the average of the confidences other than -1. *)
Definition avg_confidence (conf : list Z) : result value :=
  let confidences := filter not_sentinel conf in
  match confidences with
  | [] => Ok (VInt 0)
  | _ => x <-? int_truediv (sum confidences) (len confidences) ;; Ok (VFloat x)
  end.

(** Line 95: the ["confidence"] entry of the answer. *)
Definition reported_confidence (conf : list Z) : result value :=
  avg <-? avg_confidence conf ;; round avg 2.

(** Lines 56-64 of [perform_ocr] and 128-133 of [ocr_with_layout], the
    same statements in both: a PDF is rasterized with [first_page=1,
    last_page=1] and [images[0]] is taken, anything else is opened as
    an image. *)
Definition decode (content_type : option pystr) (file_bytes : bytes) : prog Image :=
  if opt_str_eqb content_type (lit "application/pdf")
  then images <- perform (convert_from_bytes file_bytes 1 1) ;;
       lift (getitem images 0)
  else perform (Image_open file_bytes).

Section Handlers.

(** [str.isspace] and [str.isdigit] on one code point: the Unicode
    tables of the interpreter. *)
Variables isspace isdigit : Z -> bool.

(** [JSONResponse(content)] encodes the body when it is built, with
    [json.dumps] and UTF-8: [render_error content] is the message of
    the exception this raises, if it raises (a str with a lone
    surrogate, an int with more digits than the interpreter converts). *)
Variable render_error : value -> option pystr.

Definition json_response (content : value) : result response :=
  match render_error content with
  | None => Ok (JSONResponse content)
  | Some e => Error e
  end.

(** Lines 83-84 and 97-104: the ["metadata"] entry. *)
Definition metadata (text : pystr) (image : Image) : value :=
  let has_numbers := existsb isdigit text in
  let has_currency := existsb (fun c => existsb (Z.eqb c) currency_symbols) text in
  VDict [
    ("char_count", VInt (len text));
    ("word_count", VInt (len (split isspace text)));
    ("line_count", VInt (len (split_on newline text)));
    ("has_numbers", VBool has_numbers);
    ("has_currency", VBool has_currency);
    ("image_size",
      VStr (str_of_int (fst (size image)) ++ lit "x" ++ str_of_int (snd (size image))))
  ].

(** [POST /ocr].  The calls of [logger] are left out: they do not
    raise and leave the answer as it is. *)
Definition perform_ocr (file : UploadFile) : prog response :=
  try_except
    (let file_bytes := contents file in
     image <- decode (content_type file) file_bytes ;;
     text <- perform (image_to_string image (lit "--psm 1")) ;;
     data <- perform (image_to_data image (lit "--psm 1")) ;;
     avg <- lift (avg_confidence (Data.conf data)) ;;
     confidence <- lift (round avg 2) ;;
     lift (json_response (VDict [
       ("success", VBool true);
       ("text", VStr text);
       ("confidence", confidence);
       ("method", VStr (lit "tesseract"));
       ("metadata", metadata text image)
     ])))
    (fun e =>
       Ret (HTTPException 500 (VDict [
         ("error", VStr e);
         ("method", VStr (lit "tesseract"));
         ("file", of_option (filename file))
       ]))).

(** Lines 146-156: the entry appended for index [i]. *)
Definition entry (data : Data.t) (i : nat) : result value :=
  text_i <-? getitem (Data.text data) i ;;
  conf_i <-? getitem (Data.conf data) i ;;
  left_i <-? getitem (Data.left data) i ;;
  top_i <-? getitem (Data.top data) i ;;
  width_i <-? getitem (Data.width data) i ;;
  height_i <-? getitem (Data.height data) i ;;
  level_i <-? getitem (Data.level data) i ;;
  Ok (VDict [
    ("text", VStr text_i);
    ("confidence", VInt conf_i);
    ("bbox", VDict [
      ("left", VInt left_i);
      ("top", VInt top_i);
      ("width", VInt width_i);
      ("height", VInt height_i)
    ]);
    ("level", VInt level_i)
  ]).

(** Line 145: the test of the loop; the text is read only when the
    confidence is not -1. *)
Definition retained (data : Data.t) (i : nat) : result bool :=
  conf_i <-? getitem (Data.conf data) i ;;
  if not_sentinel conf_i
  then text_i <-? getitem (Data.text data) i ;; Ok (truthy (strip isspace text_i))
  else Ok false.

(** Lines 144-156: the loop over the indices still to visit, with
    the list [results] built so far. *)
Fixpoint layout_loop (data : Data.t) (indices : list nat) (results : list value)
  : result (list value) :=
  match indices with
  | [] => Ok results
  | i :: rest =>
      keep <-? retained data i ;;
      if keep
      then e <-? entry data i ;; layout_loop data rest (results ++ [e])
      else layout_loop data rest results
  end.

(** Lines 143-156 *)
Definition layout_results (data : Data.t) : result (list value) :=
  layout_loop data (range (List.length (Data.text data))) [].

(** [POST /ocr-with-layout] *)
Definition ocr_with_layout (file : UploadFile) : prog response :=
  try_except
    (let file_bytes := contents file in
     image <- decode (content_type file) file_bytes ;;
     data <- perform (image_to_data image (lit "--psm 1")) ;;
     results <- lift (layout_results data) ;;
     lift (json_response (VDict [
       ("success", VBool true);
       ("results", VList results);
       ("method", VStr (lit "tesseract-layout"));
       ("total_words", VInt (len results))
     ])))
    (fun e => Ret (HTTPException 500 (VDict [("error", VStr e)]))).

End Handlers.

(** [GET /] *)
Definition root : value :=
  VDict [
    ("service", VStr (lit "AIBOS Tesseract OCR"));
    ("status", VStr (lit "running"));
    ("version", VStr (lit "1.0.0"))
  ].

(** [GET /health], where [get_tesseract_version] is what the call
    [pytesseract.get_tesseract_version()] gives: the version as
    [str(version)] shows it, or the exception it raises.  The dict the
    handler returns is answered by FastAPI as a JSON body with
    status 200. *)
Definition health_check (get_tesseract_version : result pystr) : prog response :=
  try_except
    (version <- lift get_tesseract_version ;;
     Ret (JSONResponse (VDict [
       ("status", VStr (lit "healthy"));
       ("service", VStr (lit "tesseract-ocr"));
       ("tesseract_version", VStr version)
     ])))
    (fun e => Ret (HTTPException 500 (VStr e))).

(** ** The notions of the specification *)

(** A RecognitionToken: index [i] of every column of the engine's
    answer describes one token. *)
Record token := {
  tok_text : pystr;
  tok_conf : Z;
  tok_left : Z;
  tok_top : Z;
  tok_width : Z;
  tok_height : Z;
  tok_level : Z
}.

(** A RecognitionResult as the engine's dict: the columns of a sequence
    of tokens, all of one length. *)
Definition data_of (tokens : list token) : Data.t :=
  Data.mk (map tok_level tokens) (map tok_left tokens) (map tok_top tokens)
          (map tok_width tokens) (map tok_height tokens)
          (map tok_conf tokens) (map tok_text tokens).

(** The LayoutEntry of a token, with the text as the engine gave it. *)
Definition entry_of (t : token) : value :=
  VDict [
    ("text", VStr (tok_text t));
    ("confidence", VInt (tok_conf t));
    ("bbox", VDict [
      ("left", VInt (tok_left t));
      ("top", VInt (tok_top t));
      ("width", VInt (tok_width t));
      ("height", VInt (tok_height t))
    ]);
    ("level", VInt (tok_level t))
  ].

(** A token enters the average when its confidence is not -1. *)
Definition averaged (t : token) : bool := not_sentinel (tok_conf t).

(** A token is kept by the layout when its confidence is not -1 and
    its text, trimmed of surrounding whitespace, is not empty. *)
Definition kept (isspace : Z -> bool) (t : token) : bool :=
  averaged t && truthy (strip isspace (tok_text t)).

(** A character that is not whitespace *)
Definition nonspace (isspace : Z -> bool) (c : Z) : bool := negb (isspace c).

(** While [split] reads a text: whether a word is being read, and
    whether the next character would begin one. *)
Definition in_word (word : pystr) : nat :=
  match word with [] => 0%nat | _ => 1%nat end.

Definition at_start (word : pystr) : bool :=
  match word with [] => true | _ => false end.

(** A text is blank when it is empty or whitespace throughout. *)
Definition blank (isspace : Z -> bool) (s : pystr) : bool := forallb isspace s.

(** The number of elements of [l] that satisfy [f] *)
Fixpoint count {A} (f : A -> bool) (l : list A) : nat :=
  match l with
  | [] => 0
  | x :: l' => (if f x then 1 else 0) + count f l'
  end.

(** The indices of the elements of [l] that satisfy [f], the first
    element of [l] having index [k]. *)
Fixpoint indices_of {A} (f : A -> bool) (k : nat) (l : list A) : list nat :=
  match l with
  | [] => []
  | x :: l' => if f x then k :: indices_of f (S k) l' else indices_of f (S k) l'
  end.

(** A confidence of the data model: -1, or between 0 and 100. *)
Definition confidence_in_range (c : Z) : Prop := c = -1 \/ 0 <= c <= 100.

(** [h] hundredths is a number of two decimals nearest to the mean of
    [l]: |h/100 - sum(l)/len(l)| <= 1/200. *)
Definition nearest_hundredth (l : list Z) (h : Z) : Prop :=
  Z.abs (2 * (h * len l - 100 * sum l)) <= len l.

(** The mean of [l] in hundredths with the further digits cut off. *)
Definition truncated_hundredths (l : list Z) : Z := Z.quot (100 * sum l) (len l).

(** The characters '0' to '9' *)
Definition ascii_digit (c : Z) : bool := (48 <=? c) && (c <=? 57).

(** The number of places where a word begins: a character that is not
    whitespace, first in the text or right after whitespace. *)
Fixpoint word_starts (isspace : Z -> bool) (after_space : bool) (s : pystr) : nat :=
  match s with
  | [] => 0
  | c :: s' =>
      (if after_space && negb (isspace c) then 1 else 0)
      + word_starts isspace (isspace c) s'
  end.

(** [sep.join(parts)] for a separator of one character *)
Fixpoint join (sep : Z) (parts : list pystr) : pystr :=
  match parts with
  | [] => []
  | [p] => p
  | p :: rest => p ++ sep :: join sep rest
  end.

(** The configuration of both engine calls *)
Definition psm : pystr := lit "--psm 1".

(** The body of a success of [POST /ocr], and its failure *)
Definition ocr_content (isspace isdigit : Z -> bool)
    (text : pystr) (confidence : value) (image : Image) : value :=
  VDict [
    ("success", VBool true);
    ("text", VStr text);
    ("confidence", confidence);
    ("method", VStr (lit "tesseract"));
    ("metadata", metadata isspace isdigit text image)
  ].

Definition ocr_failure (file : UploadFile) (e : pystr) : response :=
  HTTPException 500 (VDict [
    ("error", VStr e);
    ("method", VStr (lit "tesseract"));
    ("file", of_option (filename file))
  ]).

(** The body of a success of [POST /ocr-with-layout], and its failure *)
Definition layout_content (results : list value) : value :=
  VDict [
    ("success", VBool true);
    ("results", VList results);
    ("method", VStr (lit "tesseract-layout"));
    ("total_words", VInt (len results))
  ].

Definition layout_failure (e : pystr) : response :=
  HTTPException 500 (VDict [("error", VStr e)]).

(** What [POST /ocr] computes once the world has answered *)
Definition ocr_steps (isspace isdigit : Z -> bool) (render_error : value -> option pystr)
    (w : world) (file : UploadFile) : result response :=
  image <-? outcome w (decode (content_type file) (contents file)) ;;
  text <-? w (image_to_string image psm) ;;
  data <-? w (image_to_data image psm) ;;
  confidence <-? reported_confidence (Data.conf data) ;;
  json_response render_error (ocr_content isspace isdigit text confidence image).

(** What [POST /ocr-with-layout] computes once the world has answered *)
Definition layout_steps (isspace : Z -> bool) (render_error : value -> option pystr)
    (w : world) (file : UploadFile) : result response :=
  image <-? outcome w (decode (content_type file) (contents file)) ;;
  data <-? w (image_to_data image psm) ;;
  results <-? layout_results isspace data ;;
  json_response render_error (layout_content results).

(** The one content type that is rasterized *)
Definition pdf : pystr := lit "application/pdf".

Definition is_rasterize (c : call) : bool :=
  match c with
  | convert_from_bytes _ _ _ => true
  | _ => false
  end.

Definition is_open (c : call) : bool :=
  match c with
  | Image_open _ => true
  | _ => false
  end.

(** ** Sample inputs *)

(** [str.isspace] and [str.isdigit] below U+0100.  Besides '0' to '9',
    [isdigit] holds of the superscripts two, three and one. *)
Definition isspace_latin1 (c : Z) : bool :=
  existsb (Z.eqb c) [9; 10; 11; 12; 13; 28; 29; 30; 31; 32; 133; 160].

Definition isdigit_latin1 (c : Z) : bool :=
  ascii_digit c || existsb (Z.eqb c) [178; 179; 185].

(** A sample encoder: like UTF-8 it refuses a str that holds a
    surrogate code point, and it encodes everything else. *)
Definition is_surrogate (c : Z) : bool := (55296 <=? c) && (c <=? 57343).

Fixpoint has_surrogate (v : value) : bool :=
  match v with
  | VStr s => existsb is_surrogate s
  | VList l => existsb has_surrogate l
  | VDict items => existsb (fun item => has_surrogate (snd item)) items
  | _ => false
  end.

Definition sample_render_error (content : value) : option pystr :=
  if has_surrogate content then Some (lit "surrogates not allowed") else None.

Definition sample_image : Image :=
  {| size := (640, 480); mode := lit "RGB"; pixels := [] |}.

Definition sample_token (text : string) (conf : Z) : token :=
  {| tok_text := lit text; tok_conf := conf; tok_left := 10; tok_top := 20;
     tok_width := 30; tok_height := 12; tok_level := 5 |}.

Definition sample_tokens : list token :=
  [sample_token "" (-1); sample_token " Total " 0; sample_token "  " 1;
   sample_token "42" 1].

(** A world in which a PDF has one page, any image opens, and the
    engine reads [text] and [tokens]. *)
Definition sample_world (text : pystr) (tokens : list token) : world :=
  fun c =>
    match c with
    | convert_from_bytes _ _ _ => Ok [sample_image]
    | Image_open _ => Ok sample_image
    | image_to_string _ _ => Ok text
    | image_to_data _ _ => Ok (data_of tokens)
    end.

(** A world in which nothing can be decoded. *)
Definition failing_world : world :=
  fun c =>
    match c with
    | convert_from_bytes _ _ _ => Error (lit "Unable to get page count.")
    | Image_open _ => Error (lit "cannot identify image file")
    | image_to_string _ _ => Ok []
    | image_to_data _ _ => Ok (data_of [])
    end.

Definition sample_upload (name type : string) : UploadFile :=
  {| filename := Some (lit name); content_type := Some (lit type); contents := [] |}.

(** ** The notions of the claims *)

(** The confidences that count: those other than -1. *)
Definition detections (conf : list Z) : list Z :=
  filter (fun c => if Z.eq_dec c (-1) then false else true) conf.

(** The sum of a list of ints *)
Fixpoint total (l : list Z) : Z :=
  match l with
  | [] => 0
  | c :: l' => c + total l'
  end.

(** [h] hundredths is a number of two decimals nearest to the mean of
    [l]: |h/100 - total/count| <= 1/200. *)
Definition mean_rounds_to (l : list Z) (h : Z) : Prop :=
  Z.abs (2 * (h * Z.of_nat (List.length l) - 100 * total l)) <= Z.of_nat (List.length l).

(** [y] is the float of the decimal [h/100], for [h] from 0 to 2^52:
    zero for 0, and else the normal binary64 value, of 53 significant
    bits, within half a unit in its last place of [h/100]. *)
Definition float_of_hundredths (y : float) (h : Z) : Prop :=
  fneg y = false
  /\ ((h = 0 /\ fmant y = 0)
      \/ (0 < h /\ 2 ^ 52 <= fmant y < 2 ^ 53 /\ -1074 <= fexp y < 0
          /\ Z.abs (2 * (100 * fmant y - h * 2 ^ (- fexp y))) <= 100)).

(** The value of [y] lies between 0 and 100. *)
Definition float_in_0_100 (y : float) : Prop :=
  fneg y = false /\ fexp y <= 0 /\ 0 <= fmant y <= 100 * 2 ^ (- fexp y).

(** The mean of a list of ints as the service reports it before
    rounding: the integer 0 of no value, the quotient as a float else. *)
Definition mean_of (l : list Z) : result value :=
  match l with
  | [] => Ok (VInt 0)
  | _ => x <-? int_truediv (total l) (Z.of_nat (List.length l)) ;; Ok (VFloat x)
  end.

(** [core] is [s] trimmed of its surrounding whitespace: [s] is [core]
    between two stretches of whitespace, and [core] neither begins nor
    ends with whitespace. *)
Definition trimmed (isspace : Z -> bool) (s core : pystr) : Prop :=
  exists lead trail,
    s = lead ++ core ++ trail /\
    Forall (fun c => isspace c = true) lead /\
    Forall (fun c => isspace c = true) trail /\
    (forall c rest, core = c :: rest -> isspace c = false) /\
    (forall c init, core = init ++ [c] -> isspace c = false).

(** The tokens the layout is to hold: confidence other than -1 and a
    text that, trimmed, is not empty. *)
Definition retains (isspace : Z -> bool) (t : token) : Prop :=
  tok_conf t <> -1 /\ exists core, trimmed isspace (tok_text t) core /\ core <> [].

(** The same as tests: a token is detected when its confidence is not
    -1, and has text when some character of it is not whitespace. *)
Definition detected (t : token) : bool :=
  if Z.eq_dec (tok_conf t) (-1) then false else true.

Definition has_text (isspace : Z -> bool) (t : token) : bool :=
  existsb (fun c => negb (isspace c)) (tok_text t).

Definition wanted (isspace : Z -> bool) (t : token) : bool :=
  detected t && has_text isspace t.

(** ** Further notions *)

(** Row [i] of the columns as a token, with 0 and the empty text where
    a column has no index [i]. *)
Definition row (data : Data.t) (i : nat) : token :=
  {| tok_text := nth i (Data.text data) [];
     tok_conf := nth i (Data.conf data) 0;
     tok_left := nth i (Data.left data) 0;
     tok_top := nth i (Data.top data) 0;
     tok_width := nth i (Data.width data) 0;
     tok_height := nth i (Data.height data) 0;
     tok_level := nth i (Data.level data) 0 |}.

(** The rows the layout visits: as many as the text column is long. *)
Definition rows (data : Data.t) : list token :=
  map (row data) (range (List.length (Data.text data))).

Definition has_index {A} (l : list A) (i : nat) : bool := (i <? List.length l)%nat.

(** Row [i] can be read as far as the loop reads it: the confidence,
    and for a row that is kept every other column. *)
Definition readable (isspace : Z -> bool) (data : Data.t) (i : nat) : bool :=
  has_index (Data.conf data) i
  && (negb (kept isspace (row data i))
      || (has_index (Data.left data) i && has_index (Data.top data) i
          && has_index (Data.width data) i && has_index (Data.height data) i
          && has_index (Data.level data) i)).

Definition index_error : pystr := lit "list index out of range".

(** A binary64 value: zero, or a significand below 2^53 at an exponent
    from -1074 to 971 that is normal (at least 2^52) or at the least
    exponent (subnormal). *)
Definition representable (x : float) : Prop :=
  fmant x = 0
  \/ (0 < fmant x < 2 ^ prec /\ emin <= fexp x <= emax - prec
      /\ (2 ^ (prec - 1) <= fmant x \/ fexp x = emin)).

(** [x] is within half a unit in its last place of [a / b]
    ([0 <= a], [0 < b]). *)
Definition half_ulp (x : float) (a b : Z) : Prop :=
  Z.abs (2 * (fmant x * snd (scaled a b (fexp x)) - fst (scaled a b (fexp x))))
  <= snd (scaled a b (fexp x)).

(** The value of [x] is the integer [q]. *)
Definition is_integer (x : float) (q : Z) : Prop :=
  fexp x <= 0 /\ fmant x = Z.abs q * 2 ^ (- fexp x) /\ (q <> 0 -> fneg x = (q <? 0)).

(** The string a text of ASCII code points spells. *)
Fixpoint unlit (s : pystr) : string :=
  match s with
  | [] => EmptyString
  | c :: s' => String (ascii_of_nat (Z.to_nat c)) (unlit s')
  end.

(** [int(s)] for a decimal [s] *)
Definition int_of_str (s : pystr) : option Z :=
  option_map Z.of_int (NilZero.int_of_string (unlit s)).

(** Reading ["WIDTHxHEIGHT"] back *)
Definition parse_size (s : pystr) : option (Z * Z) :=
  match split_on 120 s with
  | [w; h] =>
      match int_of_str w, int_of_str h with
      | Some width, Some height => Some (width, height)
      | _, _ => None
      end
  | _ => None
  end.

Definition is_data (c : call) : bool :=
  match c with
  | image_to_data _ _ => true
  | _ => false
  end.

(** The character between two words that [" ".join] puts *)
Definition space : Z := 32.

(** * Properties *)

(** ** Rounding *)

Lemma div_rne_spec num den :
  0 <= num -> 0 < den ->
  0 <= div_rne num den /\ Z.abs (2 * (div_rne num den * den - num)) <= den.
Proof.
  intros Hn Hd. unfold div_rne.
  pose proof (Z.div_mod num den ltac:(lia)) as E.
  pose proof (Z.mod_pos_bound num den Hd) as B.
  pose proof (Z.div_pos num den Hn Hd) as Q.
  set (q := num / den) in *. set (r := num mod den) in *.
  destruct (Z.compare_spec (2 * r) den); [destruct (Z.even q)| |]; split; nia.
Qed.

Lemma scaled_neg a b e : e < 0 -> scaled a b e = (a * 2 ^ (- e), b).
Proof. intros H. unfold scaled. destruct (Z.leb_spec 0 e); [lia | reflexivity]. Qed.

Lemma scaled_nonneg a b e : 0 <= e -> scaled a b e = (a, b * 2 ^ e).
Proof. intros H. unfold scaled. destruct (Z.leb_spec 0 e); [reflexivity | lia]. Qed.

(** At a negative normalising exponent the scaled quotient is at least 2^52. *)
Lemma norm_exp_lower a b :
  0 < a -> 0 < b -> Z.log2 a + 2 < Z.log2 b + prec ->
  norm_exp a b < -1 /\ 2 ^ (prec - 1) * b <= a * 2 ^ (- norm_exp a b) /\
  Z.log2 a - Z.log2 b - prec <= norm_exp a b.
Proof.
  intros Ha Hb Hl. unfold norm_exp.
  set (e0 := Z.log2 a - Z.log2 b - prec).
  assert (He0 : e0 < -2) by (unfold e0; lia).
  rewrite scaled_neg by lia.
  destruct (Z.log2_spec a Ha) as [La Ua]. destruct (Z.log2_spec b Hb) as [Lb Ub].
  pose proof (Z.log2_nonneg a). pose proof (Z.log2_nonneg b).
  assert (P : 2 ^ (- e0) * 2 ^ Z.log2 a = 2 ^ (prec - 1) * 2 ^ Z.succ (Z.log2 b)).
  { rewrite <- !Z.pow_add_r by (unfold prec in *; lia). f_equal. unfold e0. lia. }
  assert (0 < 2 ^ (- e0)) by (apply Z.pow_pos_nonneg; try lia).
  assert (0 < 2 ^ (prec - 1)) by (apply Z.pow_pos_nonneg; unfold prec; try lia).
  destruct (Z.leb_spec (2 ^ prec * b) (a * 2 ^ (- e0))) as [Hge|Hlt].
  - split; [lia|]. split; [|lia].
    replace (- (e0 + 1)) with (- e0 - 1) by lia.
    assert (E2 : 2 ^ (- e0) = 2 * 2 ^ (- e0 - 1)).
    { rewrite <- Z.pow_succ_r by lia. f_equal. lia. }
    assert (E3 : 2 ^ prec = 2 * 2 ^ (prec - 1)).
    { reflexivity. }
    nia.
  - split; [lia|]. split; [|lia]. nia.
Qed.

Lemma pow2_pos e : 0 <= e -> 0 < 2 ^ e.
Proof. intros. apply Z.pow_pos_nonneg; lia. Qed.

(** In the range of the service [nearest] does not overflow, and its
    significand is within half a unit of the scaled quotient. *)
Lemma nearest_spec s a b :
  0 < a -> 0 < b -> Z.log2 a + 2 < Z.log2 b + prec ->
  emin <= Z.log2 a - Z.log2 b - prec ->
  exists m e,
    nearest s a b = Ok (F64.mk s m e) /\ e < 0 /\ 0 <= m /\
    Z.abs (2 * (m * b - a * 2 ^ (- e))) <= b /\
    2 ^ (prec - 2) * b <= a * 2 ^ (- e).
Proof.
  intros Ha Hb Hl Hmin.
  destruct (norm_exp_lower a b Ha Hb Hl) as (Hneg & Hlow & He0).
  unfold nearest. rewrite Z.max_r by lia.
  set (e := norm_exp a b) in *.
  rewrite scaled_neg by lia.
  assert (HD : 0 < 2 ^ (- e)) by (apply pow2_pos; lia).
  destruct (div_rne_spec (a * 2 ^ (- e)) b ltac:(nia) Hb) as [Hm0 Hm].
  set (m := div_rne (a * 2 ^ (- e)) b) in *.
  assert (E2 : 2 ^ (- e) = 2 * 2 ^ (- (e + 1))).
  { rewrite <- Z.pow_succ_r by lia. f_equal. lia. }
  assert (HD' : 0 < 2 ^ (- (e + 1))) by (apply pow2_pos; lia).
  change (2 ^ (prec - 1)) with (2 * 2 ^ (prec - 2)) in Hlow.
  assert (P : 0 < 2 ^ (prec - 2)) by reflexivity.
  destruct (Z.eqb_spec m (2 ^ prec)) as [Em|Nm].
  - exists (2 ^ (prec - 1)), (e + 1).
    destruct (Z.ltb_spec (emax - prec) (e + 1)) as [Hov|_];
      [unfold emax, prec in Hov; lia|].
    split; [reflexivity|]. split; [lia|]. split; [apply Z.lt_le_incl; reflexivity|].
    rewrite Em in Hm. change (2 ^ prec) with (2 * 2 ^ (prec - 1)) in Hm.
    set (D := 2 ^ (- (e + 1))) in *. set (M := 2 ^ (prec - 1)) in *.
    set (N := 2 ^ (prec - 2)) in *. split; lia.
  - exists m, e.
    destruct (Z.ltb_spec (emax - prec) e) as [Hov|_];
      [unfold emax, prec in Hov; lia|].
    split; [reflexivity|]. split; [lia|]. split; [lia|].
    set (N := 2 ^ (prec - 2)) in *. split; nia.
Qed.

Lemma round_digits_neg s m e :
  e < 0 -> round_digits (F64.mk s m e) 2 = div_rne (100 * m) (2 ^ (- e)).
Proof.
  intros He. unfold round_digits. cbn [fmant fexp].
  rewrite scaled_nonneg by lia. change (10 ^ 2) with 100.
  now rewrite Z.mul_1_l.
Qed.

(** The heart of the matter: dividing, then rounding to two digits,
    lands on a hundredth nearest to the exact quotient. *)
Lemma truediv_round_nearest a b :
  0 < a -> 0 < b -> 400 * a < 2 ^ prec -> b < 2 ^ 63 ->
  exists x,
    int_truediv a b = Ok x /\ fneg x = false /\
    0 <= round_digits x 2 /\
    Z.abs (2 * (round_digits x 2 * b - 100 * a)) <= b.
Proof.
  intros Ha Hb Hs Hn.
  assert (La : Z.log2 a < 45).
  { apply Z.log2_lt_pow2; [lia|]. change (2 ^ prec) with (400 * 22517998136852 + 192) in Hs.
    change (2 ^ 45) with 35184372088832. lia. }
  assert (Lb : Z.log2 b < 63) by (apply Z.log2_lt_pow2; lia).
  pose proof (Z.log2_nonneg a). pose proof (Z.log2_nonneg b).
  destruct (nearest_spec false a b Ha Hb) as (m & e & Hx & He & Hm0 & Hm & Hlow);
    [unfold prec; lia | unfold emin, prec; lia |].
  exists (F64.mk false m e).
  unfold int_truediv.
  destruct (Z.eqb_spec b 0) as [|_]; [lia|].
  destruct (Z.eqb_spec a 0) as [|_]; [lia|].
  destruct (Z.ltb_spec a 0) as [|_]; [lia|].
  destruct (Z.ltb_spec b 0) as [|_]; [lia|].
  cbn [xorb]. rewrite !Z.abs_eq by lia.
  split; [exact Hx|]. split; [reflexivity|].
  rewrite round_digits_neg by lia.
  assert (HD : 0 < 2 ^ (- e)) by (apply pow2_pos; lia).
  destruct (div_rne_spec (100 * m) (2 ^ (- e)) ltac:(lia) HD) as [Hh0 Hh].
  set (h := div_rne (100 * m) (2 ^ (- e))) in *.
  set (D := 2 ^ (- e)) in *.
  split; [exact Hh0|].
  change (2 ^ (prec - 2)) with 2251799813685248 in Hlow.
  change (2 ^ prec) with 9007199254740992 in Hs.
  assert (HDb : 100 * b < D) by nia.
  assert (I : 2 * (h * b - 100 * a) * D
              = b * (2 * (h * D - 100 * m)) + 100 * (2 * (m * b - a * D))) by ring.
  assert (Z.abs (2 * (h * b - 100 * a)) * D < (b + 1) * D).
  { rewrite <- (Z.abs_eq D) at 1 by lia. rewrite <- Z.abs_mul, I.
    eapply Z.le_lt_trans; [apply Z.abs_triangle|].
    rewrite !Z.abs_mul, (Z.abs_eq b), (Z.abs_eq 100) by lia. nia. }
  nia.
Qed.

(** On a grid of small operands [int_truediv] is the division of the
    Standard Library's IEEE-754 model. *)
Lemma int_truediv_agrees_ieee_sample :
  forallb (fun a => forallb (fun b => same_as_ieee a (b + 1)) (map Z.of_nat (seq 0 40)))
          (map Z.of_nat (seq 0 120))
  = true.
Proof. vm_compute. reflexivity. Qed.

(** The ties of [round]: 0.125 and 0.375 are floats and go to the even
    hundredth; 1/200 and 2.675 are not, and go where the float lies. *)
Example round_ties :
  map (fun q => x <-? int_truediv (fst q) (snd q) ;; Ok (round_digits x 2))
      [(1, 8); (3, 8); (1, 200); (535, 200)]
  = [Ok 12; Ok 38; Ok 1; Ok 267].
Proof. reflexivity. Qed.

(** ** Lists *)

Lemma sum_from l a : fold_left Z.add l a = a + sum l.
Proof.
  unfold sum. revert a. induction l as [|c l IH]; intros a; cbn.
  - lia.
  - rewrite IH, (IH c). lia.
Qed.

Lemma sum_cons c l : sum (c :: l) = c + sum l.
Proof. unfold sum at 1. cbn. apply sum_from. Qed.

Lemma len_cons {A} (x : A) l : len (x :: l) = 1 + len l.
Proof. unfold len. cbn [List.length]. lia. Qed.

Lemma len_nonneg {A} (l : list A) : 0 <= len l.
Proof. unfold len. lia. Qed.

Lemma len_filter_le {A} (f : A -> bool) l : len (filter f l) <= len l.
Proof. unfold len. pose proof (filter_length_le f l). lia. Qed.

(** The confidences that are averaged lie between 0 and 100. *)
Lemma sum_filter_range conf :
  Forall confidence_in_range conf ->
  0 <= sum (filter not_sentinel conf) <= 100 * len (filter not_sentinel conf).
Proof.
  induction 1 as [|c l Hc _ IH]; cbn [filter].
  - cbn. lia.
  - destruct (not_sentinel c) eqn:E.
    + rewrite sum_cons, len_cons. destruct Hc as [Hc|Hc]; [subst c; discriminate | lia].
    + exact IH.
Qed.

Lemma filter_nonempty conf :
  (exists c, In c conf /\ c <> -1) -> filter not_sentinel conf <> [].
Proof.
  intros (c & Hin & Hc) E.
  assert (H : In c (filter not_sentinel conf)).
  { apply filter_In. split; [exact Hin|]. unfold not_sentinel.
    destruct (Z.eqb_spec c (-1)); [contradiction | reflexivity]. }
  rewrite E in H. exact H.
Qed.

Lemma filter_all_sentinel conf :
  (forall c, In c conf -> c = -1) -> filter not_sentinel conf = [].
Proof.
  intros H. induction conf as [|c l IH]; [reflexivity|]. cbn [filter].
  rewrite (H c (or_introl eq_refl)). cbn.
  apply IH. intros d Hd. apply H. right. exact Hd.
Qed.

(** ** The reported confidence *)

Lemma of_decimal_ok h :
  0 <= h < 2 ^ 55 -> exists y, of_decimal false h 2 = Ok y.
Proof.
  intros Hh. unfold of_decimal.
  destruct (Z.eqb_spec h 0) as [|N]; [eexists; reflexivity|].
  assert (L : Z.log2 h < 55) by (apply Z.log2_lt_pow2; lia).
  pose proof (Z.log2_nonneg h).
  destruct (nearest_spec false h (10 ^ 2)) as (m & e & Hy & _);
    [lia | reflexivity | | | eexists; exact Hy].
  - change (Z.log2 (10 ^ 2)) with 6. unfold prec. lia.
  - change (Z.log2 (10 ^ 2)) with 6. unfold emin, prec. lia.
Qed.

(** The reported confidence of a list with an average. *)
Lemma reported_confidence_nearest conf :
  Forall confidence_in_range conf -> len conf < 2 ^ 32 ->
  filter not_sentinel conf <> [] ->
  exists h y,
    reported_confidence conf = Ok (VFloat y) /\
    of_decimal false h 2 = Ok y /\
    nearest_hundredth (filter not_sentinel conf) h.
Proof.
  intros Hr Hl Hne.
  pose proof (sum_filter_range conf Hr) as Hs.
  pose proof (len_filter_le not_sentinel conf) as Hf.
  unfold reported_confidence, avg_confidence, nearest_hundredth.
  set (l := filter not_sentinel conf) in *.
  assert (Hn : 0 < len l).
  { destruct l; [congruence|]. rewrite len_cons. pose proof (len_nonneg l). lia. }
  destruct l as [|c0 l0] eqn:El; [congruence|]. rewrite <- El in *. clear El c0 l0.
  change (2 ^ 32) with 4294967296 in Hl.
  destruct (Z.eq_dec (sum l) 0) as [Z0|NZ].
  - rewrite Z0. unfold int_truediv.
    destruct (Z.eqb_spec (len l) 0) as [|_]; [lia|].
    destruct (Z.ltb_spec (len l) 0) as [|_]; [lia|].
    exists 0, (zero false). cbn. repeat split. lia.
  - destruct (truediv_round_nearest (sum l) (len l)) as (x & Hx & Hsx & Hh0 & Hh);
      [lia | lia | change (2 ^ prec) with 9007199254740992; lia
      | change (2 ^ 63) with 9223372036854775808; lia |].
    rewrite Hx. cbn [rbind round]. unfold F64.round. rewrite Hsx.
    set (h := round_digits x 2) in *.
    destruct (of_decimal_ok h) as [y Hy].
    { split; [lia|]. change (2 ^ 55) with 36028797018963968. nia. }
    exists h, y. rewrite Hy. cbn. repeat split; assumption.
Qed.

(** ** Strings *)

Lemma existsb_rev {A} (f : A -> bool) l : existsb f (rev l) = existsb f l.
Proof.
  induction l as [|x l IH]; [reflexivity|]. cbn.
  rewrite existsb_app, IH. cbn. rewrite orb_false_r. apply orb_comm.
Qed.

Lemma forallb_rev {A} (f : A -> bool) l : forallb f (rev l) = forallb f l.
Proof.
  induction l as [|x l IH]; [reflexivity|]. cbn.
  rewrite forallb_app, IH. cbn. rewrite andb_true_r. apply andb_comm.
Qed.

Section StringFacts.

Variable isspace : Z -> bool.

Abbreviation ns := (nonspace isspace).

Lemma nonspace_true c : isspace c = false -> ns c = true.
Proof. unfold nonspace. now intros ->. Qed.

Lemma nonspace_false c : isspace c = true -> ns c = false.
Proof. unfold nonspace. now intros ->. Qed.

Lemma truthy_rev s : truthy (rev s) = truthy s.
Proof.
  destruct s as [|c s]; [reflexivity|]. cbn.
  destruct (rev s ++ [c]) eqn:E; [|reflexivity].
  apply app_eq_nil in E. destruct E; discriminate.
Qed.

Lemma truthy_lstrip s : truthy (lstrip isspace s) = existsb ns s.
Proof.
  induction s as [|c s IH]; [reflexivity|]. cbn.
  destruct (isspace c) eqn:E.
  - now rewrite nonspace_false.
  - now rewrite nonspace_true.
Qed.

Lemma existsb_lstrip s : existsb ns (lstrip isspace s) = existsb ns s.
Proof.
  induction s as [|c s IH]; [reflexivity|]. cbn [lstrip].
  destruct (isspace c) eqn:E.
  - cbn [existsb]. now rewrite nonspace_false.
  - reflexivity.
Qed.

(** Trimming leaves something exactly when some character is not
    whitespace. *)
Lemma truthy_strip s : truthy (strip isspace s) = existsb ns s.
Proof.
  unfold strip, rstrip.
  rewrite truthy_rev, truthy_lstrip, existsb_rev, existsb_lstrip.
  reflexivity.
Qed.

Lemma strip_blank s : blank isspace s = true -> strip isspace s = [].
Proof.
  intros H. assert (E : truthy (strip isspace s) = false).
  { rewrite truthy_strip. unfold blank in H.
    induction s as [|c s IH]; [reflexivity|]. cbn in *.
    apply andb_prop in H. destruct H as [Hc Hs].
    rewrite nonspace_false by exact Hc. apply IH, Hs. }
  destruct (strip isspace s); [reflexivity | discriminate].
Qed.

Lemma split_from_length word s :
  List.length (split_from isspace word s)
  = (in_word word + word_starts isspace (at_start word) s)%nat.
Proof.
  revert word. induction s as [|c s IH]; intros word.
  - destruct word; cbn; lia.
  - cbn. destruct (isspace c) eqn:E.
    + destruct word; cbn; rewrite IH; cbn; lia.
    + rewrite IH. destruct word; cbn; lia.
Qed.

(** [split] yields one word for every place where a word begins. *)
Lemma split_length s :
  List.length (split isspace s) = word_starts isspace true s.
Proof. unfold split. rewrite split_from_length. reflexivity. Qed.

Lemma split_from_concat word s :
  List.concat (split_from isspace word s) = rev word ++ filter ns s.
Proof.
  revert word. induction s as [|c s IH]; intros word.
  - destruct word; cbn; [reflexivity|]. now rewrite !app_nil_r.
  - cbn [split_from filter]. destruct (isspace c) eqn:E.
    + rewrite nonspace_false by exact E.
      destruct word; cbn [List.concat]; rewrite IH; reflexivity.
    + rewrite nonspace_true by exact E. rewrite IH. cbn. now rewrite <- app_assoc.
Qed.

(** The words are the text without its whitespace. *)
Lemma split_concat s : List.concat (split isspace s) = filter ns s.
Proof. unfold split. now rewrite split_from_concat. Qed.

Lemma split_from_words word s :
  forallb ns word = true ->
  Forall (fun w => w <> [] /\ forallb ns w = true) (split_from isspace word s).
Proof.
  revert word. induction s as [|c s IH]; intros word Hw.
  - destruct word as [|d word]; cbn; constructor; [|constructor].
    split.
    + intros E. apply app_eq_nil in E. destruct E; discriminate.
    + rewrite <- (rev_involutive (rev word ++ [d])), forallb_rev.
      rewrite rev_app_distr, rev_involutive. exact Hw.
  - cbn. destruct (isspace c) eqn:E.
    + destruct word as [|d word]; [apply IH; reflexivity|].
      constructor; [|apply IH; reflexivity]. split.
      * cbn. intros E'. apply app_eq_nil in E'. destruct E'; discriminate.
      * rewrite <- (rev_involutive (rev (d :: word))), forallb_rev.
        rewrite rev_involutive. exact Hw.
    + apply IH. cbn. now rewrite nonspace_true.
Qed.

(** Every word is non-empty and free of whitespace. *)
Lemma split_words s :
  Forall (fun w => w <> [] /\ forallb ns w = true) (split isspace s).
Proof. apply split_from_words. reflexivity. Qed.

End StringFacts.

Lemma split_on_from_length sep seg s :
  List.length (split_on_from sep seg s) = S (count_occ Z.eq_dec s sep).
Proof.
  revert seg. induction s as [|c s IH]; intros seg; [reflexivity|].
  cbn. destruct (Z.eqb_spec c sep) as [E|N].
  - destruct (Z.eq_dec c sep); [|contradiction]. cbn. now rewrite IH.
  - destruct (Z.eq_dec c sep); [contradiction|]. apply IH.
Qed.

(** Splitting at a separator yields one segment more than there are
    separators. *)
Lemma split_on_length sep s :
  List.length (split_on sep s) = S (count_occ Z.eq_dec s sep).
Proof. apply split_on_from_length. Qed.

Lemma join_cons sep p q rest : join sep (p :: q :: rest) = p ++ sep :: join sep (q :: rest).
Proof. reflexivity. Qed.

Lemma split_on_from_nonempty sep seg s : split_on_from sep seg s <> [].
Proof.
  revert seg. induction s as [|c s IH]; intros seg; cbn; [discriminate|].
  destruct (c =? sep); [discriminate | apply IH].
Qed.

Lemma split_on_from_join sep seg s :
  join sep (split_on_from sep seg s) = rev seg ++ s.
Proof.
  revert seg. induction s as [|c s IH]; intros seg.
  - cbn. now rewrite app_nil_r.
  - cbn [split_on_from]. destruct (Z.eqb_spec c sep) as [E|N].
    + subst c. pose proof (split_on_from_nonempty sep [] s) as Hne.
      specialize (IH []). destruct (split_on_from sep [] s) as [|q rest]; [congruence|].
      rewrite join_cons, IH. reflexivity.
    + rewrite IH. cbn. now rewrite <- app_assoc.
Qed.

(** The segments, joined by the separator, are the text again. *)
Lemma split_on_join sep s : join sep (split_on sep s) = s.
Proof. unfold split_on. now rewrite split_on_from_join. Qed.

Lemma split_on_from_segments sep seg s :
  ~ In sep seg -> Forall (fun p => ~ In sep p) (split_on_from sep seg s).
Proof.
  revert seg. induction s as [|c s IH]; intros seg Hseg.
  - cbn. constructor; [|constructor]. now rewrite <- in_rev.
  - cbn. destruct (Z.eqb_spec c sep) as [E|N].
    + constructor; [now rewrite <- in_rev | apply IH; intros []].
    + apply IH. intros [H|H]; [congruence | contradiction].
Qed.

(** No segment contains the separator. *)
Lemma split_on_segments sep s : Forall (fun p => ~ In sep p) (split_on sep s).
Proof. apply split_on_from_segments. intros []. Qed.

(** ** Running a computation *)

Lemma outcome_bind {A B} w (p : prog A) (f : A -> prog B) :
  outcome w (bind p f) = (a <-? outcome w p ;; outcome w (f a)).
Proof. induction p as [a|e|c k IH]; cbn; [reflexivity | reflexivity | apply IH]. Qed.

Lemma outcome_lift {A} w (r : result A) : outcome w (lift r) = r.
Proof. destruct r; reflexivity. Qed.

Lemma outcome_perform w c : outcome w (perform c) = w c.
Proof. cbn. apply outcome_lift. Qed.

Lemma outcome_try_except {A} w (p : prog A) h :
  outcome w (try_except p h)
  = match outcome w p with
    | Ok a => Ok a
    | Error e => outcome w (h e)
    end.
Proof. induction p as [a|e|c k IH]; cbn; [reflexivity | reflexivity | apply IH]. Qed.

Lemma trace_bind {A B} w (p : prog A) (f : A -> prog B) :
  trace w (bind p f)
  = trace w p ++ match outcome w p with
                 | Ok a => trace w (f a)
                 | Error _ => []
                 end.
Proof.
  induction p as [a|e|c k IH]; cbn; [reflexivity | reflexivity |].
  f_equal. apply IH.
Qed.

Lemma trace_lift {A} w (r : result A) : trace w (lift r) = [].
Proof. destruct r; reflexivity. Qed.

Lemma trace_perform w c : trace w (perform c) = [(c, failure (w c))].
Proof. cbn. now rewrite trace_lift. Qed.

Lemma trace_try_except {A} w (p : prog A) h :
  trace w (try_except p h)
  = trace w p ++ match outcome w p with
                 | Ok _ => []
                 | Error e => trace w (h e)
                 end.
Proof.
  induction p as [a|e|c k IH]; cbn; [reflexivity | reflexivity |].
  f_equal. apply IH.
Qed.

(** ** Decoding the upload *)

Lemma str_eqb_eq a b : str_eqb a b = true <-> a = b.
Proof. unfold str_eqb. destruct (list_eq_dec Z.eq_dec a b); split; congruence. Qed.

Lemma opt_str_eqb_eq o b : opt_str_eqb o b = true <-> o = Some b.
Proof.
  destruct o as [s|]; cbn.
  - rewrite str_eqb_eq. split; congruence.
  - split; discriminate.
Qed.

Lemma opt_str_eqb_neq o b : opt_str_eqb o b = false <-> o <> Some b.
Proof.
  rewrite <- opt_str_eqb_eq. destruct (opt_str_eqb o b); split; congruence.
Qed.

Lemma decode_pdf_outcome w b :
  outcome w (decode (Some pdf) b)
  = (images <-? w (convert_from_bytes b 1 1) ;; getitem images 0).
Proof.
  unfold decode. replace (opt_str_eqb (Some pdf) (lit "application/pdf")) with true
    by (symmetry; now apply opt_str_eqb_eq).
  rewrite outcome_bind, outcome_perform.
  destruct (w (convert_from_bytes b 1 1)); cbn; [apply outcome_lift | reflexivity].
Qed.

Lemma decode_pdf_trace w b :
  trace w (decode (Some pdf) b)
  = [(convert_from_bytes b 1 1, failure (w (convert_from_bytes b 1 1)))].
Proof.
  unfold decode. replace (opt_str_eqb (Some pdf) (lit "application/pdf")) with true
    by (symmetry; now apply opt_str_eqb_eq).
  rewrite trace_bind, trace_perform, outcome_perform.
  destruct (w (convert_from_bytes b 1 1)); cbn; [now rewrite trace_lift | reflexivity].
Qed.

Lemma decode_other_outcome w ct b :
  ct <> Some pdf -> outcome w (decode ct b) = w (Image_open b).
Proof.
  intros H. apply opt_str_eqb_neq in H. unfold decode, pdf in *. rewrite H.
  exact (outcome_perform w (Image_open b)).
Qed.

Lemma decode_other_trace w ct b :
  ct <> Some pdf ->
  trace w (decode ct b) = [(Image_open b, failure (w (Image_open b)))].
Proof.
  intros H. apply opt_str_eqb_neq in H. unfold decode, pdf in *. rewrite H.
  exact (trace_perform w (Image_open b)).
Qed.

(** A failed decoding is the failure of its one call. *)
Lemma decode_failure w ct b e :
  outcome w (decode ct b) = Error e ->
  (exists c, trace w (decode ct b) = [(c, Some e)])
  \/ (e = lit "list index out of range"
      /\ exists c, trace w (decode ct b) = [(c, None)]).
Proof.
  destruct (opt_str_eqb ct pdf) eqn:N;
    [apply opt_str_eqb_eq in N; subst ct | apply opt_str_eqb_neq in N].
  - rewrite decode_pdf_outcome, decode_pdf_trace.
    destruct (w (convert_from_bytes b 1 1)) as [images|e'] eqn:E; cbn.
    + unfold getitem. destruct (nth_error images 0); [discriminate|].
      intros [= <-]. right. split; [reflexivity | eexists; reflexivity].
    + intros [= ->]. left. eexists; reflexivity.
  - rewrite decode_other_outcome, decode_other_trace by exact N.
    destruct (w (Image_open b)) as [image|e'] eqn:E; cbn; [discriminate|].
    intros [= ->]. left. eexists; reflexivity.
Qed.

Lemma decode_success w ct b image :
  outcome w (decode ct b) = Ok image ->
  exists c, trace w (decode ct b) = [(c, None)].
Proof.
  destruct (opt_str_eqb ct pdf) eqn:N;
    [apply opt_str_eqb_eq in N; subst ct | apply opt_str_eqb_neq in N].
  - rewrite decode_pdf_outcome, decode_pdf_trace.
    destruct (w (convert_from_bytes b 1 1)) as [images|e'] eqn:E; cbn;
      [|discriminate]. intros _. eexists; reflexivity.
  - rewrite decode_other_outcome, decode_other_trace by exact N.
    destruct (w (Image_open b)) as [image'|e'] eqn:E; cbn; [|discriminate].
    intros _. eexists; reflexivity.
Qed.

(** ** The handlers, step by step *)

Section HandlerFacts.

Variables isspace isdigit : Z -> bool.
Variable render_error : value -> option pystr.

(** [POST /ocr] answers with what its steps compute, or with the
    failure of the first step that raised. *)
Lemma perform_ocr_outcome w file :
  outcome w (perform_ocr isspace isdigit render_error file)
  = Ok match ocr_steps isspace isdigit render_error w file with
       | Ok r => r
       | Error e => ocr_failure file e
       end.
Proof.
  unfold perform_ocr, ocr_steps, reported_confidence.
  rewrite outcome_try_except, outcome_bind.
  destruct (outcome w (decode (content_type file) (contents file)))
    as [image|e]; cbn [rbind]; [|reflexivity].
  cbn [bind perform outcome]. fold psm.
  destruct (w (image_to_string image psm)) as [text|e]; cbn [lift bind outcome rbind];
    [|reflexivity].
  destruct (w (image_to_data image psm)) as [data|e]; cbn [lift bind outcome rbind];
    [|reflexivity].
  destruct (avg_confidence (Data.conf data)) as [avg|e]; cbn [lift bind outcome rbind];
    [|reflexivity].
  destruct (round avg 2) as [confidence|e];
    cbn [lift bind outcome trace rbind app failure]; [|reflexivity].
  unfold ocr_content, json_response.
  destruct (render_error _); reflexivity.
Qed.

Lemma perform_ocr_trace w file :
  trace w (perform_ocr isspace isdigit render_error file)
  = trace w (decode (content_type file) (contents file))
    ++ match outcome w (decode (content_type file) (contents file)) with
       | Ok image =>
           (image_to_string image psm, failure (w (image_to_string image psm)))
           :: match w (image_to_string image psm) with
              | Ok _ => [(image_to_data image psm, failure (w (image_to_data image psm)))]
              | Error _ => []
              end
       | Error _ => []
       end.
Proof.
  unfold perform_ocr.
  rewrite trace_try_except, trace_bind, <- app_assoc. f_equal.
  rewrite outcome_bind.
  destruct (outcome w (decode (content_type file) (contents file)))
    as [image|e]; cbn [rbind app]; [|reflexivity].
  cbn [bind perform outcome trace]. fold psm.
  destruct (w (image_to_string image psm)) as [text|e];
    cbn [lift bind outcome trace rbind app failure]; [|reflexivity].
  destruct (w (image_to_data image psm)) as [data|e];
    cbn [lift bind outcome trace rbind app failure]; [|reflexivity].
  destruct (avg_confidence (Data.conf data)) as [avg|e];
    cbn [lift bind outcome trace rbind app failure]; [|reflexivity].
  destruct (round avg 2) as [confidence|e];
    cbn [lift bind outcome trace rbind app failure]; [|reflexivity].
  unfold ocr_content, json_response.
  destruct (render_error _); reflexivity.
Qed.

Lemma ocr_with_layout_outcome w file :
  outcome w (ocr_with_layout isspace render_error file)
  = Ok match layout_steps isspace render_error w file with
       | Ok r => r
       | Error e => layout_failure e
       end.
Proof.
  unfold ocr_with_layout, layout_steps.
  rewrite outcome_try_except, outcome_bind.
  destruct (outcome w (decode (content_type file) (contents file)))
    as [image|e]; cbn [rbind]; [|reflexivity].
  cbn [bind perform outcome]. fold psm.
  destruct (w (image_to_data image psm)) as [data|e]; cbn [lift bind outcome rbind];
    [|reflexivity].
  destruct (layout_results isspace data) as [results|e];
    cbn [lift bind outcome trace rbind app failure]; [|reflexivity].
  unfold layout_content, json_response.
  destruct (render_error _); reflexivity.
Qed.

Lemma ocr_with_layout_trace w file :
  trace w (ocr_with_layout isspace render_error file)
  = trace w (decode (content_type file) (contents file))
    ++ match outcome w (decode (content_type file) (contents file)) with
       | Ok image => [(image_to_data image psm, failure (w (image_to_data image psm)))]
       | Error _ => []
       end.
Proof.
  unfold ocr_with_layout.
  rewrite trace_try_except, trace_bind, <- app_assoc. f_equal.
  rewrite outcome_bind.
  destruct (outcome w (decode (content_type file) (contents file)))
    as [image|e]; cbn [rbind app]; [|reflexivity].
  cbn [bind perform outcome trace]. fold psm.
  destruct (w (image_to_data image psm)) as [data|e];
    cbn [lift bind outcome trace rbind app failure]; [|reflexivity].
  destruct (layout_results isspace data) as [results|e];
    cbn [lift bind outcome trace rbind app failure]; [|reflexivity].
  unfold layout_content, json_response.
  destruct (render_error _); reflexivity.
Qed.

End HandlerFacts.

(** ** The layout *)

Lemma getitem_map {A B} (f : A -> B) l i x :
  nth_error l i = Some x -> getitem (map f l) i = Ok (f x).
Proof. intros H. unfold getitem. now rewrite nth_error_map, H. Qed.

Lemma nth_error_middle {A} (pre : list A) x rest :
  nth_error (pre ++ x :: rest) (List.length pre) = Some x.
Proof. rewrite nth_error_app2 by lia. now rewrite Nat.sub_diag. Qed.

Section LayoutFacts.

Variable isspace : Z -> bool.

Lemma retained_data_of tokens i t :
  nth_error tokens i = Some t ->
  retained isspace (data_of tokens) i = Ok (kept isspace t).
Proof.
  intros H. unfold retained, data_of, kept, averaged. cbn [Data.conf Data.text].
  rewrite (getitem_map tok_conf _ _ _ H). cbn [rbind].
  destruct (not_sentinel (tok_conf t)); [|reflexivity].
  now rewrite (getitem_map tok_text _ _ _ H).
Qed.

Lemma entry_data_of tokens i t :
  nth_error tokens i = Some t -> entry (data_of tokens) i = Ok (entry_of t).
Proof.
  intros H. unfold entry, data_of.
  cbn [Data.conf Data.text Data.left Data.top Data.width Data.height Data.level].
  rewrite (getitem_map tok_text _ _ _ H), (getitem_map tok_conf _ _ _ H),
    (getitem_map tok_left _ _ _ H), (getitem_map tok_top _ _ _ H),
    (getitem_map tok_width _ _ _ H), (getitem_map tok_height _ _ _ H),
    (getitem_map tok_level _ _ _ H).
  reflexivity.
Qed.

(** The loop, having visited [pre] and built [results], appends the
    entries of the tokens of [rest] that are kept, in their order. *)
Lemma layout_loop_tokens rest : forall pre results,
  layout_loop isspace (data_of (pre ++ rest))
              (seq (List.length pre) (List.length rest)) results
  = Ok (results ++ map entry_of (filter (kept isspace) rest)).
Proof.
  induction rest as [|t rest IH]; intros pre results.
  - cbn. now rewrite app_nil_r.
  - cbn [List.length seq layout_loop filter].
    rewrite (retained_data_of _ _ t (nth_error_middle pre t rest)). cbn [rbind].
    specialize (IH (pre ++ [t])).
    rewrite <- app_assoc, length_app in IH. cbn [app List.length] in IH.
    rewrite Nat.add_1_r in IH.
    destruct (kept isspace t).
    + rewrite (entry_data_of _ _ t (nth_error_middle pre t rest)). cbn [rbind].
      rewrite IH. cbn [map]. now rewrite <- app_assoc.
    + apply IH.
Qed.

Lemma layout_results_tokens tokens :
  layout_results isspace (data_of tokens)
  = Ok (map entry_of (filter (kept isspace) tokens)).
Proof.
  unfold layout_results, range. cbn [data_of Data.text]. rewrite length_map.
  exact (layout_loop_tokens tokens [] []).
Qed.

End LayoutFacts.

Lemma filter_length_count {A} (f : A -> bool) l : List.length (filter f l) = count f l.
Proof.
  induction l as [|x l IH]; [reflexivity|]. cbn.
  destruct (f x); cbn; now rewrite IH.
Qed.

Lemma indices_of_lower {A} (f : A -> bool) l : forall k,
  Forall (fun i => (k <= i)%nat) (indices_of f k l).
Proof.
  induction l as [|x l IH]; intros k; cbn; [constructor|].
  assert (H : Forall (fun i => (k <= i)%nat) (indices_of f (S k) l)).
  { eapply Forall_impl; [|apply IH]. cbn. intros; lia. }
  destruct (f x); [constructor; [lia | exact H] | exact H].
Qed.

Lemma indices_of_sorted {A} (f : A -> bool) l : forall k,
  StronglySorted lt (indices_of f k l).
Proof.
  induction l as [|x l IH]; intros k; cbn; [constructor|].
  destruct (f x); [|apply IH].
  constructor; [apply IH|].
  eapply Forall_impl; [|apply (indices_of_lower f l (S k))]. cbn. intros; lia.
Qed.

Lemma indices_of_lookup {A} (f : A -> bool) l : forall pre,
  map (nth_error (pre ++ l)) (indices_of f (List.length pre) l)
  = map Some (filter f l).
Proof.
  induction l as [|x l IH]; intros pre; [reflexivity|]. cbn [indices_of filter].
  specialize (IH (pre ++ [x])).
  rewrite <- app_assoc, length_app in IH. cbn [app List.length] in IH.
  rewrite Nat.add_1_r in IH.
  destruct (f x); [|exact IH].
  cbn [map]. now rewrite nth_error_middle, IH.
Qed.

Lemma indices_of_complete {A} (f : A -> bool) l : forall pre i x,
  nth_error (pre ++ l) i = Some x -> (List.length pre <= i)%nat ->
  (In i (indices_of f (List.length pre) l) <-> f x = true).
Proof.
  induction l as [|y l IH]; intros pre i x Hi Hle.
  - rewrite app_nil_r in Hi.
    assert (nth_error pre i <> None) as H by congruence.
    apply nth_error_Some in H. lia.
  - cbn [indices_of].
    pose proof (IH (pre ++ [y]) i x) as IH'.
    rewrite <- app_assoc, length_app in IH'. cbn [app List.length] in IH'.
    rewrite Nat.add_1_r in IH'.
    pose proof (indices_of_lower f l (S (List.length pre))) as Hlow.
    rewrite Forall_forall in Hlow.
    destruct (Nat.eq_dec i (List.length pre)) as [->|Hne].
    + rewrite nth_error_middle in Hi. injection Hi as ->.
      destruct (f x) eqn:E.
      * split; [reflexivity | intros _; now left].
      * split; [|discriminate]. intros H. apply Hlow in H. lia.
    + specialize (IH' Hi ltac:(lia)).
      destruct (f y); [|exact IH'].
      cbn [In]. rewrite <- IH'. split; [intros [H|H]; [lia | exact H] | now right].
Qed.

(** ** Floats, over the whole range *)

Lemma pow2_succ e : 0 <= e -> 2 ^ (e + 1) = 2 * 2 ^ e.
Proof. intros. rewrite Z.pow_add_r by lia. change (2 ^ 1) with 2. lia. Qed.

Lemma scaled_pos a b e :
  0 < a -> 0 < b -> 0 < fst (scaled a b e) /\ 0 < snd (scaled a b e).
Proof.
  intros Ha Hb. unfold scaled. destruct (Z.leb_spec 0 e); cbn [fst snd].
  - pose proof (pow2_pos e ltac:(lia)). split; nia.
  - pose proof (pow2_pos (- e) ltac:(lia)). split; nia.
Qed.

(** Raising the exponent by [k] divides the scaled quotient by 2^k. *)
Lemma scaled_cross a b e k :
  0 <= k ->
  fst (scaled a b (e + k)) * snd (scaled a b e) * 2 ^ k
  = fst (scaled a b e) * snd (scaled a b (e + k)).
Proof.
  intros Hk. unfold scaled.
  destruct (Z.leb_spec 0 e); destruct (Z.leb_spec 0 (e + k)); cbn [fst snd]; try lia.
  - rewrite (Z.pow_add_r 2 e k) by lia. ring.
  - replace k with (- e + (e + k)) at 1 by lia.
    rewrite (Z.pow_add_r 2 (- e) (e + k)) by lia. ring.
  - replace (- e) with (- (e + k) + k) by lia.
    rewrite (Z.pow_add_r 2 (- (e + k)) k) by lia. ring.
Qed.

(** At the normalising exponent the scaled quotient lies in
    [2^52, 2^53). *)
Lemma norm_exp_bounds a b :
  0 < a -> 0 < b ->
  2 ^ (prec - 1) * snd (scaled a b (norm_exp a b)) <= fst (scaled a b (norm_exp a b))
  /\ fst (scaled a b (norm_exp a b)) < 2 ^ prec * snd (scaled a b (norm_exp a b)).
Proof.
  intros Ha Hb. unfold norm_exp.
  set (e0 := Z.log2 a - Z.log2 b - prec).
  destruct (Z.log2_spec a Ha) as [La Ua]. destruct (Z.log2_spec b Hb) as [Lb Ub].
  pose proof (Z.log2_nonneg a) as Na. pose proof (Z.log2_nonneg b) as Nb.
  rewrite <- Z.add_1_r in Ua, Ub.
  rewrite pow2_succ in Ua, Ub by lia.
  pose proof (pow2_pos (Z.log2 a) Na) as Pa. pose proof (pow2_pos (Z.log2 b) Nb) as Pb.
  assert (B0 : 2 ^ (prec - 1) * snd (scaled a b e0) < fst (scaled a b e0)
               /\ fst (scaled a b e0) < 2 * 2 ^ prec * snd (scaled a b e0)).
  { unfold scaled. destruct (Z.leb_spec 0 e0) as [P|N]; cbn [fst snd].
    - assert (E : 2 ^ Z.log2 a = 2 ^ Z.log2 b * 2 ^ prec * 2 ^ e0).
      { rewrite <- !Z.pow_add_r by (unfold prec; lia). f_equal. unfold e0. lia. }
      pose proof (pow2_pos e0 P). change (2 ^ prec) with (2 * 2 ^ (prec - 1)) in *.
      assert (0 < 2 ^ (prec - 1)) by reflexivity.
      set (X := 2 ^ (prec - 1)) in *. set (Y := 2 ^ e0) in *.
      set (A := 2 ^ Z.log2 a) in *. set (B := 2 ^ Z.log2 b) in *. split; nia.
    - assert (E : 2 ^ Z.log2 a * 2 ^ (- e0) = 2 ^ Z.log2 b * 2 ^ prec).
      { rewrite <- !Z.pow_add_r by (unfold prec; lia). f_equal. unfold e0. lia. }
      pose proof (pow2_pos (- e0) ltac:(lia)).
      change (2 ^ prec) with (2 * 2 ^ (prec - 1)) in *.
      assert (0 < 2 ^ (prec - 1)) by reflexivity.
      set (X := 2 ^ (prec - 1)) in *. set (Y := 2 ^ (- e0)) in *.
      set (A := 2 ^ Z.log2 a) in *. set (B := 2 ^ Z.log2 b) in *. split; nia. }
  destruct (scaled a b e0) as [n0 d0] eqn:S0. cbn [fst snd] in B0.
  pose proof (scaled_pos a b e0 Ha Hb) as P0. rewrite S0 in P0. cbn [fst snd] in P0.
  destruct (Z.leb_spec (2 ^ prec * d0) n0) as [T|T].
  - pose proof (scaled_cross a b e0 1 ltac:(lia)) as C. rewrite S0 in C.
    cbn [fst snd] in C. change (2 ^ 1) with 2 in C.
    pose proof (scaled_pos a b (e0 + 1) Ha Hb) as P1.
    destruct (scaled a b (e0 + 1)) as [n1 d1]. cbn [fst snd] in *.
    change (2 ^ prec) with (2 * 2 ^ (prec - 1)) in *.
    assert (0 < 2 ^ (prec - 1)) by reflexivity.
    set (X := 2 ^ (prec - 1)) in *. split; nia.
  - rewrite S0. cbn [fst snd]. lia.
Qed.

Lemma div_rne_upper num den k :
  0 <= num -> 0 < den -> 0 <= k -> num <= k * den -> div_rne num den <= k.
Proof.
  intros Hn Hd Hk H. destruct (div_rne_spec num den Hn Hd) as [_ B]. nia.
Qed.

Lemma div_rne_lower num den k :
  0 <= num -> 0 < den -> k * den <= num -> k <= div_rne num den.
Proof.
  intros Hn Hd H. destruct (div_rne_spec num den Hn Hd) as [_ B]. nia.
Qed.

Lemma clamped_quotient n d nc dc X Y :
  0 < d -> 0 < dc -> 0 < nc -> 2 <= Y -> nc * d * Y = n * dc -> n < 2 * X * d ->
  nc <= X * dc.
Proof.
  intros Hd Hdc Hnc HY C B.
  assert (H : nc * Y * d < 2 * X * dc * d) by nia.
  assert (H' : nc * Y < 2 * X * dc) by nia.
  nia.
Qed.

Lemma halved_error T U d d1 :
  0 < d -> 0 < d1 -> T * (2 * d) = d1 * U -> - d <= U <= d -> - d1 <= T <= d1.
Proof. intros Hd Hd1 I [L H]. split; nia. Qed.

(** What [nearest] returns is a binary64 value within half a unit in
    the last place of the quotient. *)
Lemma nearest_correctly_rounded s a b x :
  0 < a -> 0 < b -> nearest s a b = Ok x ->
  fneg x = s /\ representable x /\ half_ulp x a b.
Proof.
  intros Ha Hb. unfold nearest, representable, half_ulp.
  pose proof (norm_exp_bounds a b Ha Hb) as [Blo Bhi].
  set (e := norm_exp a b) in *.
  assert (P52 : 0 < 2 ^ (prec - 1)) by reflexivity.
  assert (P53 : 2 ^ prec = 2 * 2 ^ (prec - 1)) by reflexivity.
  destruct (Z.le_gt_cases emin e) as [Hle|Hgt];
    [rewrite Z.max_r by exact Hle | rewrite Z.max_l by lia].
  - (* normal range *)
    pose proof (scaled_pos a b e Ha Hb) as [Pn Pd].
    pose proof (scaled_cross a b e 1 ltac:(lia)) as C. change (2 ^ 1) with 2 in C.
    pose proof (scaled_pos a b (e + 1) Ha Hb) as [Pn1 Pd1].
    destruct (scaled a b e) as [n d] eqn:S. cbn [fst snd] in *.
    destruct (div_rne_spec n d ltac:(lia) Pd) as [M0 M].
    pose proof (div_rne_lower n d (2 ^ (prec - 1)) ltac:(lia) Pd Blo) as Mlo.
    pose proof (div_rne_upper n d (2 ^ prec) ltac:(lia) Pd
                (Z.pow_nonneg 2 prec ltac:(lia)) (Z.lt_le_incl _ _ Bhi)) as Mhi.
    set (m := div_rne n d) in *.
    destruct (Z.eqb_spec m (2 ^ prec)) as [Em|Nm].
    + destruct (Z.ltb_spec (emax - prec) (e + 1)); [discriminate|].
      intros [= <-]. cbn [fneg fmant fexp].
      split; [reflexivity|]. split.
      * right. split; [split; [exact P52 | reflexivity]|]. split; [lia|].
        left. apply Z.le_refl.
      * destruct (scaled a b (e + 1)) as [n1 d1]. cbn [fst snd] in *.
        rewrite Em, P53 in M. set (X := 2 ^ (prec - 1)) in *.
        assert (I : 2 * (X * d1 - n1) * (2 * d) = d1 * (2 * (2 * X * d - n))) by lia.
        set (T := 2 * (X * d1 - n1)) in *. set (U := 2 * (2 * X * d - n)) in *.
        apply Z.abs_le. apply Z.abs_le in M.
        exact (halved_error T U d d1 Pd Pd1 I M).
    + destruct (Z.ltb_spec (emax - prec) e); [discriminate|].
      intros [= <-]. cbn [fneg fmant fexp]. rewrite S. cbn [fst snd].
      split; [reflexivity|]. split; [|exact M].
      right. split; [lia|]. split; [lia|]. left. exact Mlo.
  - (* below the normal range *)
    pose proof (scaled_cross a b e (emin - e) ltac:(lia)) as C.
    replace (e + (emin - e)) with emin in C by lia.
    pose proof (scaled_pos a b e Ha Hb) as [Pn Pd].
    pose proof (scaled_pos a b emin Ha Hb) as [Pnc Pdc].
    assert (K : 2 <= 2 ^ (emin - e)).
    { change 2 with (2 ^ 1) at 1. apply Z.pow_le_mono_r; lia. }
    destruct (scaled a b e) as [n d]. destruct (scaled a b emin) as [nc dc] eqn:Sc.
    cbn [fst snd] in *.
    assert (Hc : nc <= 2 ^ (prec - 1) * dc).
    { rewrite P53 in Bhi.
      exact (clamped_quotient n d nc dc _ _ Pd Pdc Pnc K C Bhi). }
    destruct (div_rne_spec nc dc ltac:(lia) Pdc) as [M0 M].
    pose proof (div_rne_upper nc dc (2 ^ (prec - 1)) ltac:(lia) Pdc ltac:(lia) Hc) as Mhi.
    set (m := div_rne nc dc) in *.
    destruct (Z.eqb_spec m (2 ^ prec)) as [Em|Nm]; [lia|].
    destruct (Z.ltb_spec (emax - prec) emin) as [Hov|_];
      [unfold emax, prec, emin in Hov; lia|].
    intros [= <-]. cbn [fneg fmant fexp]. rewrite Sc. cbn [fst snd].
    split; [reflexivity|]. split; [|exact M].
    destruct (Z.eq_dec m 0) as [Z0|NZ]; [left; exact Z0|].
    right. split; [lia|]. split; [unfold emax, prec, emin; lia|]. right. reflexivity.
Qed.

(** ** Trimming *)

Section StripFacts.

Variable isspace : Z -> bool.

Lemma lstrip_parts s :
  exists lead, s = lead ++ lstrip isspace s /\ blank isspace lead = true.
Proof.
  induction s as [|c s (lead & E & B)]; [exists []; split; reflexivity|].
  cbn [lstrip]. destruct (isspace c) eqn:Hc.
  - exists (c :: lead). split; [cbn; now rewrite <- E|]. unfold blank in *. cbn.
    now rewrite Hc, B.
  - exists []. split; reflexivity.
Qed.

Lemma lstrip_head s c rest : lstrip isspace s = c :: rest -> isspace c = false.
Proof.
  induction s as [|d s IH]; [discriminate|]. cbn [lstrip].
  destruct (isspace d) eqn:Hd; [exact IH|]. now intros [= <- _].
Qed.

Lemma lstrip_nonspace_head c rest :
  isspace c = false -> lstrip isspace (c :: rest) = c :: rest.
Proof. intros H. cbn. now rewrite H. Qed.

Lemma blank_rev s : blank isspace (rev s) = blank isspace s.
Proof. apply forallb_rev. Qed.

Lemma rstrip_parts s :
  exists trail, s = rstrip isspace s ++ trail /\ blank isspace trail = true.
Proof.
  destruct (lstrip_parts (rev s)) as (lead & E & B).
  exists (rev lead). split; [|now rewrite blank_rev].
  unfold rstrip. rewrite <- rev_app_distr, <- E. now rewrite rev_involutive.
Qed.

Lemma rstrip_last s c init : rstrip isspace s = init ++ [c] -> isspace c = false.
Proof.
  unfold rstrip. intros H. apply (f_equal (@rev Z)) in H.
  rewrite rev_involutive, rev_app_distr in H. cbn in H.
  exact (lstrip_head _ _ _ H).
Qed.

Lemma rstrip_nonspace_last init c :
  isspace c = false -> rstrip isspace (init ++ [c]) = init ++ [c].
Proof.
  intros H. unfold rstrip. rewrite rev_app_distr. cbn [rev app].
  rewrite lstrip_nonspace_head by exact H.
  change (c :: rev init) with ([c] ++ rev init).
  now rewrite rev_app_distr, rev_involutive.
Qed.

Lemma rstrip_head s c rest d rest' :
  s = c :: rest -> rstrip isspace s = d :: rest' -> d = c.
Proof.
  intros -> H. destruct (rstrip_parts (c :: rest)) as (trail & E & _).
  rewrite H in E. now injection E as ->.
Qed.

Lemma blank_Forall s : blank isspace s = true -> Forall (fun c => isspace c = true) s.
Proof. intros H. apply Forall_forall. apply forallb_forall. exact H. Qed.

(** [strip] gives the text trimmed of its surrounding whitespace. *)
Lemma strip_trimmed s : trimmed isspace s (strip isspace s).
Proof.
  destruct (lstrip_parts s) as (lead & El & Bl).
  destruct (rstrip_parts (lstrip isspace s)) as (trail & Er & Br).
  exists lead, trail.
  split; [unfold strip; rewrite <- Er; exact El|].
  split; [now apply blank_Forall|]. split; [now apply blank_Forall|]. split.
  - intros c rest H. unfold strip in H.
    destruct (lstrip isspace s) as [|d u] eqn:Eu; [discriminate|].
    rewrite (rstrip_head _ d u c rest eq_refl H). exact (lstrip_head _ _ _ Eu).
  - intros c init H. exact (rstrip_last _ _ _ H).
Qed.

Lemma strip_strip s : strip isspace (strip isspace s) = strip isspace s.
Proof.
  destruct (strip_trimmed s) as (_ & _ & _ & _ & _ & Hh & Hl).
  destruct (strip isspace s) as [|c rest] eqn:E; [reflexivity|].
  unfold strip at 1. rewrite (lstrip_nonspace_head c rest (Hh c rest eq_refl)).
  destruct (exists_last (l := c :: rest) ltac:(discriminate)) as (init & d & Ed).
  rewrite Ed in *. apply rstrip_nonspace_last. exact (Hl d init eq_refl).
Qed.

End StripFacts.


(** ** The notions of the claims and the code *)

Lemma detections_filter conf : detections conf = filter not_sentinel conf.
Proof.
  unfold detections. apply filter_ext. intros c. unfold not_sentinel.
  destruct (Z.eq_dec c (-1)) as [->|N]; [reflexivity|].
  now destruct (Z.eqb_spec c (-1)).
Qed.

Lemma total_sum l : total l = sum l.
Proof. induction l as [|c l IH]; [reflexivity|]. cbn [total]. now rewrite sum_cons, IH. Qed.

Lemma mean_rounds_to_nearest conf h :
  mean_rounds_to (detections conf) h <-> nearest_hundredth (filter not_sentinel conf) h.
Proof.
  unfold mean_rounds_to, nearest_hundredth, len. now rewrite detections_filter, total_sum.
Qed.

Lemma detected_averaged t : detected t = averaged t.
Proof.
  unfold detected, averaged, not_sentinel.
  destruct (Z.eq_dec (tok_conf t) (-1)) as [->|N]; [reflexivity|].
  now destruct (Z.eqb_spec (tok_conf t) (-1)).
Qed.

Lemma wanted_kept isspace t : wanted isspace t = kept isspace t.
Proof.
  unfold wanted, kept, has_text. now rewrite detected_averaged, truthy_strip.
Qed.

Lemma filter_wanted isspace tokens :
  filter (wanted isspace) tokens = filter (kept isspace) tokens.
Proof. apply filter_ext. intros t. apply wanted_kept. Qed.

(** A token is to be retained exactly when the code's test keeps it. *)
Lemma retains_kept isspace t : retains isspace t <-> kept isspace t = true.
Proof.
  unfold retains, kept, averaged, not_sentinel.
  rewrite andb_true_iff, negb_true_iff, Z.eqb_neq. split.
  - intros (Hc & core & (lead & trail & E & _ & _ & Hh & _) & Hne).
    split; [exact Hc|]. rewrite truthy_strip.
    destruct core as [|c rest]; [congruence|].
    apply existsb_exists. exists c. split.
    + rewrite E. apply in_or_app. right. now left.
    + unfold nonspace. now rewrite (Hh c rest eq_refl).
  - intros (Hc & Ht). split; [exact Hc|].
    exists (strip isspace (tok_text t)). split; [apply strip_trimmed|].
    destruct (strip isspace (tok_text t)); [discriminate | discriminate].
Qed.

(** ** The reported float *)

Lemma norm_exp_from a b : Z.log2 a - Z.log2 b - prec <= norm_exp a b.
Proof.
  unfold norm_exp. destruct (scaled a b (Z.log2 a - Z.log2 b - prec)) as [n d].
  destruct (2 ^ prec * d <=? n); lia.
Qed.

(** In the normal range [nearest] returns a normal number. *)
Lemma nearest_normal s a b x :
  0 < a -> 0 < b -> emin <= norm_exp a b -> nearest s a b = Ok x ->
  2 ^ (prec - 1) <= fmant x < 2 ^ prec /\ emin <= fexp x <= emax - prec.
Proof.
  intros Ha Hb Hmin. unfold nearest.
  pose proof (norm_exp_bounds a b Ha Hb) as [Blo Bhi].
  set (e := norm_exp a b) in *. rewrite Z.max_r by exact Hmin.
  assert (P52 : 0 < 2 ^ (prec - 1)) by reflexivity.
  assert (P53 : 2 ^ prec = 2 * 2 ^ (prec - 1)) by reflexivity.
  pose proof (scaled_pos a b e Ha Hb) as [Pn Pd].
  destruct (scaled a b e) as [n d] eqn:S. cbn [fst snd] in *.
  pose proof (div_rne_lower n d (2 ^ (prec - 1)) ltac:(lia) Pd Blo) as Mlo.
  pose proof (div_rne_upper n d (2 ^ prec) ltac:(lia) Pd
                (Z.pow_nonneg 2 prec ltac:(lia)) (Z.lt_le_incl _ _ Bhi)) as Mhi.
  set (m := div_rne n d) in *.
  destruct (Z.eqb_spec m (2 ^ prec)) as [Em|Nm].
  - destruct (Z.ltb_spec (emax - prec) (e + 1)); [discriminate|].
    intros [= <-]. cbn [fmant fexp].
    split; [split; [apply Z.le_refl | reflexivity] | lia].
  - destruct (Z.ltb_spec (emax - prec) e); [discriminate|].
    intros [= <-]. cbn [fmant fexp]. split; lia.
Qed.

(** Reading a decimal of two places back gives its float. *)
Lemma of_decimal_float h y :
  0 <= h <= 10000 -> of_decimal false h 2 = Ok y ->
  float_of_hundredths y h /\ float_in_0_100 y.
Proof.
  intros Hh. unfold of_decimal, float_of_hundredths, float_in_0_100.
  destruct (Z.eqb_spec h 0) as [->|N].
  - intros [= <-]. cbn. repeat split; lia.
  - change (10 ^ 2) with 100. intros Hy.
    assert (Hpos : 0 < h) by lia.
    assert (L : Z.log2 h < 14)
      by (apply Z.log2_lt_pow2; [lia | change (2 ^ 14) with 16384; lia]).
    pose proof (Z.log2_nonneg h) as L0.
    pose proof (norm_exp_from h 100) as Hfrom. change (Z.log2 100) with 6 in Hfrom.
    destruct (nearest_normal false h 100 y Hpos ltac:(lia)) as [Hm He];
      [unfold emin, prec in *; lia | exact Hy |].
    destruct (nearest_correctly_rounded false h 100 y Hpos ltac:(lia) Hy)
      as (Hs & _ & Hu).
    change (2 ^ (prec - 1)) with (2 ^ 52) in Hm. change (2 ^ prec) with (2 ^ 53) in Hm.
    unfold emin, emax, prec in He. unfold half_ulp in Hu.
    assert (Hneg : fexp y < 0).
    { destruct (Z.le_gt_cases 0 (fexp y)) as [Hge|]; [|assumption].
      rewrite scaled_nonneg in Hu by exact Hge. cbn [fst snd] in Hu.
      pose proof (pow2_pos (fexp y) Hge) as HP.
      apply Z.abs_le in Hu. change (2 ^ 52) with 4503599627370496 in Hm.
      set (P := 2 ^ fexp y) in *. nia. }
    rewrite scaled_neg in Hu by exact Hneg. cbn [fst snd] in Hu.
    pose proof (pow2_pos (- fexp y) ltac:(lia)) as HD.
    replace (2 * (fmant y * 100 - h * 2 ^ (- fexp y)))
      with (2 * (100 * fmant y - h * 2 ^ (- fexp y))) in Hu by ring.
    split; [split; [exact Hs|]|split; [exact Hs|]].
    + right. split; [exact Hpos|]. split; [exact Hm|]. split; [lia | exact Hu].
    + split; [lia|]. apply Z.abs_le in Hu. set (D := 2 ^ (- fexp y)) in *.
      change (2 ^ 52) with 4503599627370496 in Hm. split; nia.
Qed.

(** The reported confidence of a list with an average, in full. *)
Lemma reported_confidence_float conf :
  Forall confidence_in_range conf -> Z.of_nat (List.length conf) < 2 ^ 32 ->
  (exists c, In c conf /\ c <> -1) ->
  exists h y,
    reported_confidence conf = Ok (VFloat y) /\
    mean_rounds_to (detections conf) h /\
    0 <= h <= 10000 /\
    float_of_hundredths y h /\ float_in_0_100 y.
Proof.
  intros Hr Hl Hex.
  destruct (reported_confidence_nearest conf Hr Hl (filter_nonempty conf Hex))
    as (h & y & Hc & Hy & Hn).
  assert (Hh : 0 <= h <= 10000).
  { pose proof (sum_filter_range conf Hr) as Hs.
    pose proof (filter_nonempty conf Hex) as Hne.
    unfold nearest_hundredth in Hn.
    assert (0 < len (filter not_sentinel conf)).
    { destruct (filter not_sentinel conf); [congruence|].
      rewrite len_cons. pose proof (len_nonneg l). lia. }
    set (n := len (filter not_sentinel conf)) in *.
    set (s := sum (filter not_sentinel conf)) in *.
    apply Z.abs_le in Hn. clearbody n s. clear - Hn Hs H. split; nia. }
  exists h, y. split; [exact Hc|]. split; [now apply mean_rounds_to_nearest|].
  split; [exact Hh|]. now apply of_decimal_float.
Qed.

(** The reported confidence of any list of the data model. *)
Lemma reported_confidence_cases conf :
  Forall confidence_in_range conf -> Z.of_nat (List.length conf) < 2 ^ 32 ->
  reported_confidence conf = Ok (VInt 0)
  \/ exists h y,
       reported_confidence conf = Ok (VFloat y) /\
       mean_rounds_to (detections conf) h /\
       0 <= h <= 10000 /\
       float_of_hundredths y h /\ float_in_0_100 y.
Proof.
  intros Hr Hl.
  destruct (filter not_sentinel conf) as [|c0 l0] eqn:E.
  - left. unfold reported_confidence, avg_confidence. now rewrite E.
  - right. apply (reported_confidence_float conf Hr Hl).
    assert (Hin : In c0 (filter not_sentinel conf)) by (rewrite E; now left).
    apply filter_In in Hin. destruct Hin as [Hin Hs].
    exists c0. split; [exact Hin|]. intros ->. discriminate.
Qed.

(** ** The mean *)

Lemma total_app l l' : total (l ++ l') = total l + total l'.
Proof. induction l as [|c l IH]; [reflexivity|]. cbn [app total]. rewrite IH. ring. Qed.

Lemma avg_confidence_mean_of conf : avg_confidence conf = mean_of (detections conf).
Proof.
  unfold avg_confidence, mean_of. rewrite detections_filter.
  destruct (filter not_sentinel conf) as [|c l] eqn:E; [reflexivity|].
  now rewrite total_sum.
Qed.

Lemma mean_of_cons l :
  l <> [] ->
  mean_of l = (x <-? int_truediv (total l) (Z.of_nat (List.length l)) ;; Ok (VFloat x)).
Proof. destruct l; [congruence | reflexivity]. Qed.

Lemma app_cons_nonempty {A} (l l' : list A) (a : A) : l ++ a :: l' <> [].
Proof. now destruct l. Qed.

Lemma detections_conf tokens :
  detections (map tok_conf tokens) = map tok_conf (filter detected tokens).
Proof.
  unfold detections, detected.
  induction tokens as [|t tokens IH]; [reflexivity|]. cbn [map filter].
  destruct (Z.eq_dec (tok_conf t) (-1)); cbn [map]; now rewrite IH.
Qed.

Lemma has_text_kept isspace tokens :
  filter (kept isspace) tokens = filter (has_text isspace) (filter detected tokens).
Proof.
  rewrite <- filter_wanted. unfold wanted.
  induction tokens as [|t tokens IH]; [reflexivity|]. cbn [filter].
  destruct (detected t); cbn [andb filter]; [|exact IH].
  destruct (has_text isspace t); now rewrite IH.
Qed.

Lemma has_text_blank isspace t :
  Forall (fun c => isspace c = true) (tok_text t) -> has_text isspace t = false.
Proof.
  unfold has_text. induction 1 as [|c s Hc _ IH]; [reflexivity|].
  cbn [existsb]. now rewrite Hc, IH.
Qed.

Lemma int_truediv_positive a b x :
  0 <= a -> 0 < b -> int_truediv a b = Ok x -> representable x /\ half_ulp x a b.
Proof.
  intros Ha Hb. unfold int_truediv.
  destruct (Z.eqb_spec b 0) as [|_]; [lia|].
  destruct (Z.eqb_spec a 0) as [->|Na].
  - intros [= <-]. split; [left; reflexivity|]. unfold half_ulp. cbn. lia.
  - rewrite !Z.abs_eq by lia. intros Hx.
    now destruct (nearest_correctly_rounded _ a b x ltac:(lia) Hb Hx) as (_ & R & H).
Qed.

(** The average of a list of the data model is a float, correctly
    rounded. *)
Lemma avg_confidence_float conf :
  Forall confidence_in_range conf -> Z.of_nat (List.length conf) < 2 ^ 32 ->
  (exists c, In c conf /\ c <> -1) ->
  exists x,
    avg_confidence conf = Ok (VFloat x) /\ representable x /\
    half_ulp x (total (detections conf)) (Z.of_nat (List.length (detections conf))).
Proof.
  intros Hr Hl Hex.
  pose proof (sum_filter_range conf Hr) as Hs.
  pose proof (len_filter_le not_sentinel conf) as Hf.
  pose proof (filter_nonempty conf Hex) as Hne.
  rewrite detections_filter, total_sum. unfold avg_confidence.
  fold (len (filter not_sentinel conf)). unfold len in Hl |- *.
  fold (len conf) in Hl. fold (len (filter not_sentinel conf)).
  set (l := filter not_sentinel conf) in *.
  assert (Hn : 0 < len l).
  { destruct l; [congruence|]. rewrite len_cons. pose proof (len_nonneg l). lia. }
  destruct l as [|c0 l0] eqn:El; [congruence|]. rewrite <- El in *. clear El c0 l0.
  change (2 ^ 32) with 4294967296 in Hl.
  assert (Hx : exists x, int_truediv (sum l) (len l) = Ok x).
  { destruct (Z.eq_dec (sum l) 0) as [Z0|NZ].
    - rewrite Z0. unfold int_truediv.
      destruct (Z.eqb_spec (len l) 0) as [|_]; [lia|]. eexists. reflexivity.
    - destruct (truediv_round_nearest (sum l) (len l)) as (x & Hx & _);
        [lia | lia | change (2 ^ prec) with 9007199254740992; lia
        | change (2 ^ 63) with 9223372036854775808; lia |].
      now exists x. }
  destruct Hx as [x Hx]. exists x. rewrite Hx. split; [reflexivity|].
  apply int_truediv_positive; [lia | exact Hn | exact Hx].
Qed.

Lemma kept_iff isspace t :
  kept isspace t = true <-> tok_conf t <> -1 /\ strip isspace (tok_text t) <> [].
Proof.
  unfold kept, averaged, not_sentinel. rewrite andb_true_iff, negb_true_iff, Z.eqb_neq.
  destruct (strip isspace (tok_text t)); cbn; split; intros [H1 H2];
    (split; [exact H1|]); congruence.
Qed.

(** * The claims *)

(** ** Confidence *)

(** C3: for a confidence list of the data model (every value -1 or
    between 0 and 100, fewer than 2^32 values) with at least one value
    other than -1, the reported confidence is a float [y] and there is
    a number [h] of hundredths with |h/100 - mean| <= 1/200, the mean
    being that of the values other than -1, such that [y] is the normal
    binary64 value within half a unit in its last place of [h/100]
    (zero for [h = 0]); for a list that is empty or all -1 the reported
    confidence is the integer 0. *)
Theorem reported_confidence_rounded conf :
  (Forall confidence_in_range conf -> Z.of_nat (List.length conf) < 2 ^ 32 ->
   (exists c, In c conf /\ c <> -1) ->
   exists h y,
     reported_confidence conf = Ok (VFloat y) /\
     mean_rounds_to (detections conf) h /\
     float_of_hundredths y h)
  /\ ((forall c, In c conf -> c = -1) -> reported_confidence conf = Ok (VInt 0)).
Proof.
  split.
  - intros Hr Hl Hex.
    destruct (reported_confidence_float conf Hr Hl Hex) as (h & y & Hc & Hm & _ & Hy & _).
    exists h, y. split; [exact Hc|]. split; [exact Hm | exact Hy].
  - intros Hall. unfold reported_confidence, avg_confidence.
    now rewrite (filter_all_sentinel conf Hall).
Qed.

Lemma reported_confidence_rounded_sample :
  (exists h y,
     reported_confidence [96; -1; 91; 88] = Ok (VFloat y) /\
     mean_rounds_to (detections [96; -1; 91; 88]) h /\
     float_of_hundredths y h)
  /\ reported_confidence [-1; -1] = Ok (VInt 0).
Proof.
  split.
  - apply (proj1 (reported_confidence_rounded [96; -1; 91; 88])).
    + repeat (constructor; [unfold confidence_in_range; lia|]). constructor.
    + reflexivity.
    + exists 96. split; [now left | discriminate].
  - apply (proj2 (reported_confidence_rounded [-1; -1])).
    intros c [<-|[<-|[]]]; reflexivity.
Defined.

(** The confidences 96, -1, 91, 88 have the mean 91.666..., reported
    as 91.67: the float 6450702778766459 * 2^-46. *)
Example reported_confidence_of_three :
  reported_confidence [96; -1; 91; 88] = Ok (VFloat (F64.mk false 6450702778766459 (-46)))
  /\ float_of_hundredths (F64.mk false 6450702778766459 (-46)) 9167
  /\ mean_rounds_to [96; 91; 88] 9167.
Proof.
  split; [vm_compute; reflexivity|]. split.
  - unfold float_of_hundredths. cbn [fneg fmant fexp]. split; [reflexivity|].
    right. vm_compute. repeat split; discriminate.
  - vm_compute. discriminate.
Qed.

(** C1, as the specification states it, fails: the mean of 0, 1, 1 is
    0.666..., which truncated to two decimals is 0.66, and [POST /ocr]
    reports 0.67, another float than that of 0.66. *)
Lemma confidence_is_not_truncated :
  let tokens := [sample_token "a" 0; sample_token "b" 1; sample_token "c" 1] in
  let w := sample_world (lit "a b c") tokens in
  let file := sample_upload "scan.png" "image/png" in
  exists content y t,
    outcome w (perform_ocr isspace_latin1 isdigit_latin1 sample_render_error file)
    = Ok (JSONResponse content) /\
    field "confidence" content = Some (VFloat y) /\
    truncated_hundredths (filter not_sentinel (map tok_conf tokens)) = 66 /\
    of_decimal false 66 2 = Ok t /\
    of_decimal false 67 2 = Ok y /\
    float_of_hundredths t 66 /\
    float_of_hundredths y 67 /\
    y <> t.
Proof.
  cbv zeta. eexists. eexists. eexists.
  split; [vm_compute; reflexivity|].
  split; [vm_compute; reflexivity|].
  split; [vm_compute; reflexivity|].
  split; [vm_compute; reflexivity|].
  split; [vm_compute; reflexivity|].
  split; [split; [reflexivity|]; right; vm_compute; repeat split; discriminate|].
  split; [split; [reflexivity|]; right; vm_compute; repeat split; discriminate|].
  discriminate.
Qed.

(** C1, amended: when the engine's confidences are of the data model
    (each -1 or between 0 and 100, fewer than 2^32 of them) and one of
    them is not -1, the confidence [POST /ocr] puts in its body is the
    float [y] of a number [h] of hundredths nearest to the mean of the
    confidences other than -1 (|h/100 - mean| <= 1/200, [y] the normal
    binary64 value within half a unit in its last place of [h/100]):
    the mean is rounded, not truncated.  The body is answered as it is
    when [JSONResponse] encodes it, and the handler answers with the
    failure of the encoding when it does not. *)
Theorem perform_ocr_confidence_rounded isspace isdigit render_error w file image text data :
  outcome w (decode (content_type file) (contents file)) = Ok image ->
  w (image_to_string image psm) = Ok text ->
  w (image_to_data image psm) = Ok data ->
  Forall confidence_in_range (Data.conf data) ->
  Z.of_nat (List.length (Data.conf data)) < 2 ^ 32 ->
  (exists c, In c (Data.conf data) /\ c <> -1) ->
  exists h y content,
    mean_rounds_to (detections (Data.conf data)) h /\
    float_of_hundredths y h /\
    content = VDict [
      ("success", VBool true);
      ("text", VStr text);
      ("confidence", VFloat y);
      ("method", VStr (lit "tesseract"));
      ("metadata", metadata isspace isdigit text image)
    ] /\
    (render_error content = None ->
     outcome w (perform_ocr isspace isdigit render_error file) = Ok (JSONResponse content)) /\
    (forall e, render_error content = Some e ->
     outcome w (perform_ocr isspace isdigit render_error file)
     = Ok (HTTPException 500 (VDict [
         ("error", VStr e);
         ("method", VStr (lit "tesseract"));
         ("file", of_option (filename file))
       ]))).
Proof.
  intros Hd Ht Hdata Hr Hl Hex.
  destruct (reported_confidence_float (Data.conf data) Hr Hl Hex)
    as (h & y & Hc & Hm & _ & Hy & _).
  exists h, y. eexists. split; [exact Hm|]. split; [exact Hy|]. split; [reflexivity|].
  rewrite perform_ocr_outcome. unfold ocr_steps.
  rewrite Hd. cbn [rbind]. rewrite Ht. cbn [rbind]. rewrite Hdata. cbn [rbind].
  rewrite Hc. cbn [rbind]. unfold json_response, ocr_content.
  split; [intros ->; reflexivity | intros e ->; reflexivity].
Qed.

Lemma perform_ocr_confidence_rounded_sample :
  exists h y content,
    mean_rounds_to (detections (Data.conf (data_of sample_tokens))) h /\
    float_of_hundredths y h /\
    content = VDict [
      ("success", VBool true);
      ("text", VStr (lit "Total 42"));
      ("confidence", VFloat y);
      ("method", VStr (lit "tesseract"));
      ("metadata", metadata isspace_latin1 isdigit_latin1 (lit "Total 42") sample_image)
    ] /\
    (sample_render_error content = None ->
     outcome (sample_world (lit "Total 42") sample_tokens)
             (perform_ocr isspace_latin1 isdigit_latin1 sample_render_error
                (sample_upload "scan.png" "image/png"))
     = Ok (JSONResponse content)) /\
    (forall e, sample_render_error content = Some e ->
     outcome (sample_world (lit "Total 42") sample_tokens)
             (perform_ocr isspace_latin1 isdigit_latin1 sample_render_error
                (sample_upload "scan.png" "image/png"))
     = Ok (HTTPException 500 (VDict [
         ("error", VStr e);
         ("method", VStr (lit "tesseract"));
         ("file", of_option (filename (sample_upload "scan.png" "image/png")))
       ]))).
Proof.
  apply (perform_ocr_confidence_rounded isspace_latin1 isdigit_latin1 sample_render_error
           (sample_world (lit "Total 42") sample_tokens)
           (sample_upload "scan.png" "image/png")
           sample_image (lit "Total 42") (data_of sample_tokens)).
  - reflexivity.
  - reflexivity.
  - reflexivity.
  - repeat (constructor; [unfold confidence_in_range; cbn; lia|]). constructor.
  - reflexivity.
  - exists 0. split; [cbn; tauto | discriminate].
Defined.

(** The answers of [POST /ocr] to a scan read at the confidences 0, 1
    and 1: 0.67 with the body encoded, and the failure of the encoding
    when the text holds a lone surrogate. *)
Example perform_ocr_sample_answers :
  let tokens := [sample_token "a" 0; sample_token "b" 1; sample_token "c" 1] in
  let file := sample_upload "scan.png" "image/png" in
  outcome (sample_world (lit "a b c") tokens)
          (perform_ocr isspace_latin1 isdigit_latin1 sample_render_error file)
  = Ok (JSONResponse (VDict [
      ("success", VBool true);
      ("text", VStr (lit "a b c"));
      ("confidence", VFloat (F64.mk false 6034823500676465 (-53)));
      ("method", VStr (lit "tesseract"));
      ("metadata", VDict [
        ("char_count", VInt 5);
        ("word_count", VInt 3);
        ("line_count", VInt 1);
        ("has_numbers", VBool false);
        ("has_currency", VBool false);
        ("image_size", VStr (lit "640x480"))
      ])
    ]))
  /\ float_of_hundredths (F64.mk false 6034823500676465 (-53)) 67
  /\ outcome (sample_world [97; 55296] tokens)
             (perform_ocr isspace_latin1 isdigit_latin1 sample_render_error file)
     = Ok (HTTPException 500 (VDict [
         ("error", VStr (lit "surrogates not allowed"));
         ("method", VStr (lit "tesseract"));
         ("file", VStr (lit "scan.png"))
       ])).
Proof.
  cbv zeta. split; [vm_compute; reflexivity|]. split; [|vm_compute; reflexivity].
  unfold float_of_hundredths. cbn [fneg fmant fexp]. split; [reflexivity|].
  right. vm_compute. repeat split; discriminate.
Qed.

(** ** Layout *)

(** C2: for every recognition result the layout holds exactly the
    tokens whose confidence is not -1 and whose text has a part left
    when the whitespace around it is taken away: the entries are those
    of the tokens at the indices [indices], which increase, and an
    index of the result is among them exactly when its token is such a
    token; there are as many entries as such tokens. *)
Theorem layout_results_exact isspace tokens :
  exists results indices,
    layout_results isspace (data_of tokens) = Ok results /\
    StronglySorted lt indices /\
    (forall i t, nth_error tokens i = Some t -> (In i indices <-> retains isspace t)) /\
    map Some results = map (fun i => option_map entry_of (nth_error tokens i)) indices /\
    List.length results = List.length indices /\
    List.length results = count (wanted isspace) tokens /\
    results = map entry_of (filter (wanted isspace) tokens).
Proof.
  exists (map entry_of (filter (kept isspace) tokens)),
         (indices_of (kept isspace) 0 tokens).
  assert (Hl : map Some (map entry_of (filter (kept isspace) tokens))
               = map (fun i => option_map entry_of (nth_error tokens i))
                     (indices_of (kept isspace) 0 tokens)).
  { pose proof (indices_of_lookup (kept isspace) tokens []) as H.
    cbn [app List.length] in H. rewrite map_map.
    rewrite <- (map_map (nth_error tokens) (option_map entry_of)), H, !map_map.
    reflexivity. }
  split; [apply layout_results_tokens|].
  split; [apply indices_of_sorted|].
  split.
  { intros i t Hi. rewrite retains_kept.
    apply (indices_of_complete (kept isspace) tokens [] i t Hi). cbn. lia. }
  split; [exact Hl|].
  split.
  { apply (f_equal (@List.length (option value))) in Hl.
    rewrite !length_map in Hl. rewrite length_map. exact Hl. }
  split.
  { rewrite length_map, filter_length_count. clear Hl.
    induction tokens as [|t tokens IH]; [reflexivity|]. cbn [count].
    now rewrite wanted_kept, IH. }
  now rewrite filter_wanted.
Qed.

(** Text that is whitespace throughout is not kept, whatever its
    confidence, and text around which there is whitespace is kept as
    it is. *)
Example layout_results_of_sample :
  layout_results isspace_latin1
    (data_of [sample_token "   " 90; sample_token "" (-1); sample_token " Total " 0;
              sample_token "42" (-1); sample_token "7" 96])
  = Ok [entry_of (sample_token " Total " 0); entry_of (sample_token "7" 96)].
Proof. reflexivity. Qed.

(** C8: the body of [POST /ocr-with-layout] holds one entry for each
    token with a confidence other than -1 and a character that is not
    whitespace, in their order; the entry carries the text of its token
    as the engine gave it, untrimmed, with the token's confidence,
    bounding box and level, and [total_words] is the number of entries.
    The body is answered as it is when [JSONResponse] encodes it, and
    the handler answers with the failure of the encoding when it does
    not. *)
Theorem ocr_with_layout_entries isspace render_error w file image tokens :
  outcome w (decode (content_type file) (contents file)) = Ok image ->
  w (image_to_data image psm) = Ok (data_of tokens) ->
  exists results content,
    Forall2
      (fun t r =>
         r = VDict [
           ("text", VStr (tok_text t));
           ("confidence", VInt (tok_conf t));
           ("bbox", VDict [
             ("left", VInt (tok_left t));
             ("top", VInt (tok_top t));
             ("width", VInt (tok_width t));
             ("height", VInt (tok_height t))
           ]);
           ("level", VInt (tok_level t))
         ])
      (filter (wanted isspace) tokens) results /\
    content = VDict [
      ("success", VBool true);
      ("results", VList results);
      ("method", VStr (lit "tesseract-layout"));
      ("total_words", VInt (Z.of_nat (List.length results)))
    ] /\
    (render_error content = None ->
     outcome w (ocr_with_layout isspace render_error file) = Ok (JSONResponse content)) /\
    (forall e, render_error content = Some e ->
     outcome w (ocr_with_layout isspace render_error file)
     = Ok (HTTPException 500 (VDict [("error", VStr e)]))).
Proof.
  intros Hd Hdata.
  exists (map entry_of (filter (kept isspace) tokens)). eexists.
  split.
  { rewrite filter_wanted. clear Hdata.
    induction (filter (kept isspace) tokens) as [|t l IH]; [constructor|].
    cbn [map]. constructor; [reflexivity | exact IH]. }
  split; [reflexivity|].
  rewrite ocr_with_layout_outcome. unfold layout_steps.
  rewrite Hd. cbn [rbind]. rewrite Hdata. cbn [rbind].
  rewrite layout_results_tokens. cbn [rbind]. unfold json_response, layout_content, len.
  split; [intros ->; reflexivity | intros e ->; reflexivity].
Qed.

Lemma ocr_with_layout_entries_sample :
  exists results content,
    Forall2
      (fun t r =>
         r = VDict [
           ("text", VStr (tok_text t));
           ("confidence", VInt (tok_conf t));
           ("bbox", VDict [
             ("left", VInt (tok_left t));
             ("top", VInt (tok_top t));
             ("width", VInt (tok_width t));
             ("height", VInt (tok_height t))
           ]);
           ("level", VInt (tok_level t))
         ])
      (filter (wanted isspace_latin1) sample_tokens) results /\
    content = VDict [
      ("success", VBool true);
      ("results", VList results);
      ("method", VStr (lit "tesseract-layout"));
      ("total_words", VInt (Z.of_nat (List.length results)))
    ] /\
    (sample_render_error content = None ->
     outcome (sample_world (lit "Total 42") sample_tokens)
             (ocr_with_layout isspace_latin1 sample_render_error
                (sample_upload "scan.png" "image/png"))
     = Ok (JSONResponse content)) /\
    (forall e, sample_render_error content = Some e ->
     outcome (sample_world (lit "Total 42") sample_tokens)
             (ocr_with_layout isspace_latin1 sample_render_error
                (sample_upload "scan.png" "image/png"))
     = Ok (HTTPException 500 (VDict [("error", VStr e)]))).
Proof.
  apply (ocr_with_layout_entries isspace_latin1 sample_render_error
           (sample_world (lit "Total 42") sample_tokens)
           (sample_upload "scan.png" "image/png") sample_image sample_tokens).
  - reflexivity.
  - reflexivity.
Defined.

(** The answers of [POST /ocr-with-layout] to the sample tokens, and
    to a token whose text holds a lone surrogate. *)
Example ocr_with_layout_sample_answers :
  let file := sample_upload "scan.png" "image/png" in
  outcome (sample_world (lit "Total 42") sample_tokens)
          (ocr_with_layout isspace_latin1 sample_render_error file)
  = Ok (JSONResponse (VDict [
      ("success", VBool true);
      ("results", VList [entry_of (sample_token " Total " 0); entry_of (sample_token "42" 1)]);
      ("method", VStr (lit "tesseract-layout"));
      ("total_words", VInt 2)
    ]))
  /\ outcome (sample_world [] [{| tok_text := [97; 55296]; tok_conf := 90; tok_left := 1;
                                   tok_top := 2; tok_width := 3; tok_height := 4;
                                   tok_level := 5 |}])
             (ocr_with_layout isspace_latin1 sample_render_error file)
     = Ok (HTTPException 500 (VDict [("error", VStr (lit "surrogates not allowed"))])).
Proof. cbv zeta. split; vm_compute; reflexivity. Qed.

(** The text of a kept token keeps its surrounding whitespace. *)
Example layout_keeps_untrimmed_text :
  layout_results isspace_latin1 (data_of sample_tokens)
  = Ok [entry_of (sample_token " Total " 0); entry_of (sample_token "42" 1)].
Proof. reflexivity. Qed.

(** Columns of different lengths: the index that is out of range
    raises, and the handler answers with the failure. *)
Example ocr_with_layout_short_column :
  let data := Data.mk [5; 5] [1; 2] [1; 2] [9; 9] [8; 8] [90] [lit "a"; lit "b"] in
  layout_results isspace_latin1 data = Error (lit "list index out of range").
Proof. reflexivity. Qed.

(** C10: the mean is that of the confidences of every token whose
    confidence is not -1, whatever its text, and the layout holds those
    of these tokens that have a character other than whitespace.  A
    token with blank text and a confidence other than -1 adds its
    confidence to the sum that is divided and one to the divisor, and
    the layout is what it is without the token.  On tokens of the data
    model the average is the binary64 value nearest to the sum of these
    confidences over their number.  Two tokens of empty text with the
    confidences 10 and 90 have the average 50 and an empty layout. *)
Theorem averaged_includes_kept isspace tokens :
  avg_confidence (Data.conf (data_of tokens))
  = mean_of (map tok_conf (filter detected tokens)) /\
  layout_results isspace (data_of tokens)
  = Ok (map entry_of (filter (has_text isspace) (filter detected tokens))) /\
  (forall pre t post,
     tokens = pre ++ t :: post ->
     tok_conf t <> -1 ->
     Forall (fun c => isspace c = true) (tok_text t) ->
     let others := filter detected (pre ++ post) in
     avg_confidence (Data.conf (data_of tokens))
     = (x <-? int_truediv (total (map tok_conf others) + tok_conf t)
                          (Z.of_nat (List.length others) + 1) ;;
        Ok (VFloat x)) /\
     layout_results isspace (data_of tokens)
     = layout_results isspace (data_of (pre ++ post))) /\
  (Forall (fun t => confidence_in_range (tok_conf t)) tokens ->
   Z.of_nat (List.length tokens) < 2 ^ 32 ->
   (exists t, In t tokens /\ tok_conf t <> -1) ->
   exists x,
     avg_confidence (Data.conf (data_of tokens)) = Ok (VFloat x) /\
     representable x /\
     half_ulp x (total (map tok_conf (filter detected tokens)))
                (Z.of_nat (List.length (filter detected tokens)))) /\
  (exists x,
     avg_confidence (Data.conf (data_of [sample_token "" 10; sample_token "" 90]))
     = Ok (VFloat x) /\
     is_integer x 50 /\
     layout_results isspace (data_of [sample_token "" 10; sample_token "" 90]) = Ok []).
Proof.
  assert (Ha : avg_confidence (Data.conf (data_of tokens))
               = mean_of (map tok_conf (filter detected tokens))).
  { cbn [data_of Data.conf]. now rewrite avg_confidence_mean_of, detections_conf. }
  assert (Hk : forall l, layout_results isspace (data_of l)
                         = Ok (map entry_of (filter (has_text isspace) (filter detected l)))).
  { intros l. now rewrite layout_results_tokens, has_text_kept. }
  split; [exact Ha|]. split; [apply Hk|]. split; [|split].
  - intros pre t post -> Hc Hb. cbv zeta. split.
    + rewrite Ha. rewrite !filter_app. cbn [filter]. unfold detected at 2.
      destruct (Z.eq_dec (tok_conf t) (-1)) as [|_]; [contradiction|].
      rewrite !map_app. cbn [map]. rewrite mean_of_cons by apply app_cons_nonempty.
      rewrite !total_app. cbn [total]. rewrite !length_app. cbn [List.length].
      rewrite !length_map. f_equal. f_equal; [ring | lia].
    + rewrite !Hk. rewrite !filter_app. cbn [filter]. unfold detected at 2.
      destruct (Z.eq_dec (tok_conf t) (-1)) as [|_]; [contradiction|].
      cbn [filter]. now rewrite (has_text_blank isspace t Hb).
  - intros Hr Hl (t & Hin & Hc). cbn [data_of Data.conf].
    destruct (avg_confidence_float (map tok_conf tokens)) as (x & Hx & HR & HU).
    + apply Forall_map. exact Hr.
    + now rewrite length_map.
    + exists (tok_conf t). split; [now apply in_map | exact Hc].
    + exists x. rewrite <- detections_conf.
      rewrite <- (length_map tok_conf (filter detected tokens)), <- detections_conf.
      repeat split; assumption.
  - eexists. split; [vm_compute; reflexivity|]. split.
    + unfold is_integer. cbn [fneg fmant fexp]. split; [discriminate|].
      split; [vm_compute; reflexivity|]. intros _. reflexivity.
    + rewrite Hk. reflexivity.
Qed.

Lemma averaged_includes_kept_sample :
  let t := sample_token "  " 90 in
  let others := filter detected ([sample_token "Total" 10] ++ [sample_token "" (-1)]) in
  avg_confidence (Data.conf (data_of [sample_token "Total" 10; t; sample_token "" (-1)]))
  = (x <-? int_truediv (total (map tok_conf others) + tok_conf t)
                       (Z.of_nat (List.length others) + 1) ;;
     Ok (VFloat x)) /\
  layout_results isspace_latin1 (data_of [sample_token "Total" 10; t; sample_token "" (-1)])
  = layout_results isspace_latin1
      (data_of ([sample_token "Total" 10] ++ [sample_token "" (-1)])).
Proof.
  apply (proj1 (proj2 (proj2
           (averaged_includes_kept isspace_latin1
              [sample_token "Total" 10; sample_token "  " 90; sample_token "" (-1)])))
           [sample_token "Total" 10] (sample_token "  " 90) [sample_token "" (-1)]).
  - reflexivity.
  - discriminate.
  - repeat constructor.
Defined.

(** ** Metadata *)

Lemma ascii_digit_iff c : ascii_digit c = true <-> 48 <= c <= 57.
Proof. unfold ascii_digit. rewrite andb_true_iff, !Z.leb_le. tauto. Qed.

Lemma isdigit_latin1_ascii c : 0 <= c < 128 -> isdigit_latin1 c = ascii_digit c.
Proof.
  intros H. unfold isdigit_latin1. cbn [existsb].
  destruct (Z.eqb_spec c 178); [lia|]. destruct (Z.eqb_spec c 179); [lia|].
  destruct (Z.eqb_spec c 185); [lia|]. now rewrite !orb_false_r.
Qed.

(** C4, as the specification states it, fails: the text "m²" has none
    of the characters '0' to '9', and [has_numbers] is true of it,
    [str.isdigit] being true of the superscript two. *)
Lemma has_numbers_without_ascii_digit :
  field "has_numbers" (metadata isspace_latin1 isdigit_latin1 [109; 178] sample_image)
  = Some (VBool true)
  /\ ~ (exists c, In c [109; 178] /\ 48 <= c <= 57).
Proof.
  split; [reflexivity|].
  intros (c & [<-|[<-|[]]] & H); lia.
Qed.

(** C4, amended: [has_numbers] is true exactly when [str.isdigit] holds
    of some character of the text; it is true whenever the text has one
    of the characters '0' to '9', and for a text of ASCII characters it
    is true exactly when the text has one of them. *)
Theorem has_numbers_isdigit isspace isdigit text image :
  (forall c, 0 <= c < 128 -> isdigit c = ascii_digit c) ->
  (field "has_numbers" (metadata isspace isdigit text image) = Some (VBool true)
   <-> exists c, In c text /\ isdigit c = true)
  /\ ((exists c, In c text /\ 48 <= c <= 57) ->
      field "has_numbers" (metadata isspace isdigit text image) = Some (VBool true))
  /\ (Forall (fun c => 0 <= c < 128) text ->
      (field "has_numbers" (metadata isspace isdigit text image) = Some (VBool true)
       <-> exists c, In c text /\ 48 <= c <= 57)).
Proof.
  intros Hascii.
  assert (F : field "has_numbers" (metadata isspace isdigit text image)
              = Some (VBool (existsb isdigit text))) by reflexivity.
  rewrite F.
  assert (B : Some (VBool (existsb isdigit text)) = Some (VBool true)
              <-> exists c, In c text /\ isdigit c = true).
  { rewrite <- existsb_exists. split; [intros [= ->]; reflexivity | intros ->; reflexivity]. }
  split; [exact B|]. split.
  - intros (c & Hin & Hc). apply B. exists c. split; [exact Hin|].
    rewrite Hascii by lia. now apply ascii_digit_iff.
  - intros Hall. rewrite B. rewrite Forall_forall in Hall.
    split; intros (c & Hin & Hc); exists c; (split; [exact Hin|]).
    + apply ascii_digit_iff. rewrite <- Hascii by (apply Hall, Hin). exact Hc.
    + rewrite Hascii by (apply Hall, Hin). now apply ascii_digit_iff.
Qed.

Lemma has_numbers_isdigit_sample :
  (field "has_numbers"
     (metadata isspace_latin1 isdigit_latin1 (lit "INVOICE $100") sample_image)
   = Some (VBool true)
   <-> exists c, In c (lit "INVOICE $100") /\ isdigit_latin1 c = true)
  /\ ((exists c, In c (lit "INVOICE $100") /\ 48 <= c <= 57) ->
      field "has_numbers"
        (metadata isspace_latin1 isdigit_latin1 (lit "INVOICE $100") sample_image)
      = Some (VBool true))
  /\ (Forall (fun c => 0 <= c < 128) (lit "INVOICE $100") ->
      (field "has_numbers"
         (metadata isspace_latin1 isdigit_latin1 (lit "INVOICE $100") sample_image)
       = Some (VBool true)
       <-> exists c, In c (lit "INVOICE $100") /\ 48 <= c <= 57)).
Proof.
  apply (has_numbers_isdigit isspace_latin1 isdigit_latin1 (lit "INVOICE $100") sample_image).
  exact isdigit_latin1_ascii.
Defined.

(** C5: [char_count] is the length of the text, [word_count] the
    number of its words (the maximal runs of characters that are not
    whitespace), and [line_count] the number of segments the newlines
    cut it into, one more than there are newlines, the segment after
    the last newline counting even when it is empty. *)
Theorem metadata_counts isspace isdigit text image :
  field "char_count" (metadata isspace isdigit text image)
  = Some (VInt (Z.of_nat (List.length text)))
  /\ (exists words,
        field "word_count" (metadata isspace isdigit text image)
        = Some (VInt (Z.of_nat (List.length words))) /\
        List.length words = word_starts isspace true text /\
        Forall (fun w => w <> [] /\ forallb (nonspace isspace) w = true) words /\
        List.concat words = filter (nonspace isspace) text)
  /\ (exists segments,
        field "line_count" (metadata isspace isdigit text image)
        = Some (VInt (Z.of_nat (List.length segments))) /\
        List.length segments = S (count_occ Z.eq_dec text newline) /\
        Forall (fun p => ~ In newline p) segments /\
        join newline segments = text).
Proof.
  split; [reflexivity|]. split.
  - exists (split isspace text). split; [reflexivity|].
    split; [apply split_length|]. split; [apply split_words | apply split_concat].
  - exists (split_on newline text). split; [reflexivity|].
    split; [apply split_on_length|]. split; [apply split_on_segments | apply split_on_join].
Qed.

(** A text that ends in a newline counts the empty segment after it. *)
Example line_count_trailing_newline :
  field "line_count" (metadata isspace_latin1 isdigit_latin1 [97; 10; 98; 10] sample_image)
  = Some (VInt 3).
Proof. reflexivity. Qed.

(** ** Decoding and failure *)

Section Requests.

Variables isspace isdigit : Z -> bool.
Variable render_error : value -> option pystr.

Lemma perform_ocr_calls w file :
  calls w (perform_ocr isspace isdigit render_error file)
  = calls w (decode (content_type file) (contents file))
    ++ match outcome w (decode (content_type file) (contents file)) with
       | Ok image =>
           image_to_string image psm
           :: match w (image_to_string image psm) with
              | Ok _ => [image_to_data image psm]
              | Error _ => []
              end
       | Error _ => []
       end.
Proof.
  unfold calls. rewrite perform_ocr_trace, map_app. f_equal.
  destruct (outcome w (decode (content_type file) (contents file))); [|reflexivity].
  cbn [map fst]. destruct (w (image_to_string a psm)); reflexivity.
Qed.

Lemma ocr_with_layout_calls w file :
  calls w (ocr_with_layout isspace render_error file)
  = calls w (decode (content_type file) (contents file))
    ++ match outcome w (decode (content_type file) (contents file)) with
       | Ok image => [image_to_data image psm]
       | Error _ => []
       end.
Proof.
  unfold calls. rewrite ocr_with_layout_trace, map_app. f_equal.
  destruct (outcome w (decode (content_type file) (contents file))); reflexivity.
Qed.

Lemma decode_pdf_calls w b :
  calls w (decode (Some pdf) b) = [convert_from_bytes b 1 1].
Proof. unfold calls. now rewrite decode_pdf_trace. Qed.

Lemma decode_other_calls w ct b :
  ct <> Some pdf -> calls w (decode ct b) = [Image_open b].
Proof. intros H. unfold calls. now rewrite decode_other_trace. Qed.

(** The calls after the decoding are calls of the engine. *)
Lemma perform_ocr_calls_engine w file :
  exists rest,
    calls w (perform_ocr isspace isdigit render_error file)
    = calls w (decode (content_type file) (contents file)) ++ rest /\
    filter is_rasterize rest = [] /\ filter is_open rest = [].
Proof.
  rewrite perform_ocr_calls. eexists. split; [reflexivity|].
  destruct (outcome w (decode (content_type file) (contents file))) as [image|];
    [|split; reflexivity].
  destruct (w (image_to_string image psm)); split; reflexivity.
Qed.

Lemma ocr_with_layout_calls_engine w file :
  exists rest,
    calls w (ocr_with_layout isspace render_error file)
    = calls w (decode (content_type file) (contents file)) ++ rest /\
    filter is_rasterize rest = [] /\ filter is_open rest = [].
Proof.
  rewrite ocr_with_layout_calls. eexists. split; [reflexivity|].
  destruct (outcome w (decode (content_type file) (contents file))) as [image|];
    split; reflexivity.
Qed.

(** C6: for an upload declared as PDF, both handlers call the
    rasterizer once, for the pages from 1 to 1, never open the bytes
    as an image, and answer from the first image the rasterizer
    returns: whatever images follow it make no difference. *)
Theorem pdf_first_page_only w file :
  content_type file = Some pdf ->
  (filter is_rasterize (calls w (perform_ocr isspace isdigit render_error file))
   = [convert_from_bytes (contents file) 1 1] /\
   filter is_open (calls w (perform_ocr isspace isdigit render_error file)) = [])
  /\ (filter is_rasterize (calls w (ocr_with_layout isspace render_error file))
      = [convert_from_bytes (contents file) 1 1] /\
      filter is_open (calls w (ocr_with_layout isspace render_error file)) = [])
  /\ (forall (w' : world) page rest rest',
        w (convert_from_bytes (contents file) 1 1) = Ok (page :: rest) ->
        w' (convert_from_bytes (contents file) 1 1) = Ok (page :: rest') ->
        (forall c, is_rasterize c = false -> w' c = w c) ->
        outcome w' (perform_ocr isspace isdigit render_error file)
        = outcome w (perform_ocr isspace isdigit render_error file) /\
        outcome w' (ocr_with_layout isspace render_error file)
        = outcome w (ocr_with_layout isspace render_error file)).
Proof.
  intros Hpdf. split; [|split].
  - destruct (perform_ocr_calls_engine w file) as (rest & -> & Hr & Ho).
    rewrite Hpdf, decode_pdf_calls, !filter_app, Hr, Ho. split; reflexivity.
  - destruct (ocr_with_layout_calls_engine w file) as (rest & -> & Hr & Ho).
    rewrite Hpdf, decode_pdf_calls, !filter_app, Hr, Ho. split; reflexivity.
  - intros w' page rest rest' Hw Hw' Hsame.
    rewrite !perform_ocr_outcome, !ocr_with_layout_outcome.
    unfold ocr_steps, layout_steps.
    rewrite Hpdf, !decode_pdf_outcome, Hw, Hw'. cbn [rbind getitem nth_error].
    rewrite (Hsame (image_to_string page psm) eq_refl).
    rewrite (Hsame (image_to_data page psm) eq_refl).
    split; reflexivity.
Qed.

(** C9: both handlers rasterize exactly when the declared content
    type is the string "application/pdf"; with any other content
    type, or none, the bytes are opened as an image and the
    rasterizer is not called. *)
Theorem rasterize_iff_pdf w file :
  pdf = lit "application/pdf" /\
  (content_type file = Some pdf ->
   calls w (decode (content_type file) (contents file))
   = [convert_from_bytes (contents file) 1 1] /\
   hd_error (calls w (perform_ocr isspace isdigit render_error file))
   = Some (convert_from_bytes (contents file) 1 1) /\
   hd_error (calls w (ocr_with_layout isspace render_error file))
   = Some (convert_from_bytes (contents file) 1 1) /\
   filter is_open (calls w (perform_ocr isspace isdigit render_error file)) = [] /\
   filter is_open (calls w (ocr_with_layout isspace render_error file)) = [])
  /\ (content_type file <> Some pdf ->
      calls w (decode (content_type file) (contents file))
      = [Image_open (contents file)] /\
      hd_error (calls w (perform_ocr isspace isdigit render_error file))
      = Some (Image_open (contents file)) /\
      hd_error (calls w (ocr_with_layout isspace render_error file))
      = Some (Image_open (contents file)) /\
      filter is_rasterize (calls w (perform_ocr isspace isdigit render_error file)) = [] /\
      filter is_rasterize (calls w (ocr_with_layout isspace render_error file)) = []).
Proof.
  destruct (perform_ocr_calls_engine w file) as (r1 & E1 & Hr1 & Ho1).
  destruct (ocr_with_layout_calls_engine w file) as (r2 & E2 & Hr2 & Ho2).
  rewrite E1, E2. split; [reflexivity|]. split.
  - intros Hpdf. rewrite Hpdf, decode_pdf_calls, !filter_app, Ho1, Ho2.
    repeat split.
  - intros Hother. rewrite (decode_other_calls w _ _ Hother), !filter_app, Hr1, Hr2.
    repeat split.
Qed.

(** C7: when a call of [POST /ocr] raises, the answer is the
    HTTPException of status 500 whose detail holds the message, the
    method and the filename, and nothing else; the answer is either
    that, for some message, or the complete result of a run in which
    no call raised. *)
Theorem perform_ocr_all_or_nothing w file :
  (forall c e,
     In (c, Some e) (trace w (perform_ocr isspace isdigit render_error file)) ->
     outcome w (perform_ocr isspace isdigit render_error file)
     = Ok (HTTPException 500 (VDict [
         ("error", VStr e);
         ("method", VStr (lit "tesseract"));
         ("file", of_option (filename file))
       ])))
  /\ ((exists text confidence image,
         outcome w (perform_ocr isspace isdigit render_error file)
         = Ok (JSONResponse (VDict [
             ("success", VBool true);
             ("text", VStr text);
             ("confidence", confidence);
             ("method", VStr (lit "tesseract"));
             ("metadata", metadata isspace isdigit text image)
           ])) /\
         Forall (fun ev => snd ev = None)
                (trace w (perform_ocr isspace isdigit render_error file)))
      \/ (exists e,
            outcome w (perform_ocr isspace isdigit render_error file)
            = Ok (HTTPException 500 (VDict [
                ("error", VStr e);
                ("method", VStr (lit "tesseract"));
                ("file", of_option (filename file))
              ])))).
Proof.
  rewrite perform_ocr_outcome, perform_ocr_trace. unfold ocr_steps.
  destruct (outcome w (decode (content_type file) (contents file)))
    as [image|e0] eqn:Hd; cbn [rbind].
  - destruct (decode_success _ _ _ _ Hd) as (c0 & ->). cbn [app].
    destruct (w (image_to_string image psm)) as [text|e1]; cbn [rbind failure].
    + destruct (w (image_to_data image psm)) as [data|e2]; cbn [rbind failure].
      * destruct (reported_confidence (Data.conf data)) as [confidence|e3];
          cbn [rbind].
        -- unfold json_response, ocr_content.
           destruct (render_error _) as [e4|]; split.
           ++ intros c e [H|[H|[H|[]]]]; discriminate.
           ++ right. exists e4. reflexivity.
           ++ intros c e [H|[H|[H|[]]]]; discriminate.
           ++ left. exists text, confidence, image. split; [reflexivity|].
              repeat constructor.
        -- split.
           ++ intros c e [H|[H|[H|[]]]]; discriminate.
           ++ right. exists e3. reflexivity.
      * split.
        -- intros c e [H|[H|[H|[]]]]; try discriminate.
           injection H as _ ->. reflexivity.
        -- right. exists e2. reflexivity.
    + split.
      * intros c e [H|[H|[]]]; try discriminate.
        injection H as _ ->. reflexivity.
      * right. exists e1. reflexivity.
  - rewrite app_nil_r. split.
    + intros c e Hin.
      destruct (decode_failure _ _ _ _ Hd) as [(c0 & E)|(_ & c0 & E)];
        rewrite E in Hin; destruct Hin as [H|[]].
      * injection H as _ ->. reflexivity.
      * discriminate.
    + right. exists e0. reflexivity.
Qed.

End Requests.

Lemma pdf_first_page_only_sample :
  let w := sample_world (lit "Total 42") sample_tokens in
  let file := sample_upload "invoice.pdf" "application/pdf" in
  (filter is_rasterize
     (calls w (perform_ocr isspace_latin1 isdigit_latin1 sample_render_error file))
   = [convert_from_bytes (contents file) 1 1] /\
   filter is_open
     (calls w (perform_ocr isspace_latin1 isdigit_latin1 sample_render_error file)) = [])
  /\ (filter is_rasterize (calls w (ocr_with_layout isspace_latin1 sample_render_error file))
      = [convert_from_bytes (contents file) 1 1] /\
      filter is_open (calls w (ocr_with_layout isspace_latin1 sample_render_error file)) = [])
  /\ (forall (w' : world) page rest rest',
        w (convert_from_bytes (contents file) 1 1) = Ok (page :: rest) ->
        w' (convert_from_bytes (contents file) 1 1) = Ok (page :: rest') ->
        (forall c, is_rasterize c = false -> w' c = w c) ->
        outcome w' (perform_ocr isspace_latin1 isdigit_latin1 sample_render_error file)
        = outcome w (perform_ocr isspace_latin1 isdigit_latin1 sample_render_error file) /\
        outcome w' (ocr_with_layout isspace_latin1 sample_render_error file)
        = outcome w (ocr_with_layout isspace_latin1 sample_render_error file)).
Proof.
  apply (pdf_first_page_only isspace_latin1 isdigit_latin1 sample_render_error
           (sample_world (lit "Total 42") sample_tokens)
           (sample_upload "invoice.pdf" "application/pdf")).
  reflexivity.
Defined.

Lemma rasterize_iff_pdf_sample :
  let w := sample_world (lit "Total 42") sample_tokens in
  (hd_error (calls w (perform_ocr isspace_latin1 isdigit_latin1 sample_render_error
                        (sample_upload "invoice.pdf" "application/pdf")))
   = Some (convert_from_bytes [] 1 1))
  /\ (hd_error (calls w (perform_ocr isspace_latin1 isdigit_latin1 sample_render_error
                           (sample_upload "invoice.pdf" "application/x-pdf")))
      = Some (Image_open [])).
Proof.
  split.
  - apply (proj1 (proj2 (rasterize_iff_pdf isspace_latin1 isdigit_latin1
                           sample_render_error
                           (sample_world (lit "Total 42") sample_tokens)
                           (sample_upload "invoice.pdf" "application/pdf")))).
    reflexivity.
  - apply (proj2 (proj2 (rasterize_iff_pdf isspace_latin1 isdigit_latin1
                           sample_render_error
                           (sample_world (lit "Total 42") sample_tokens)
                           (sample_upload "invoice.pdf" "application/x-pdf")))).
    discriminate.
Defined.

Lemma perform_ocr_all_or_nothing_sample :
  outcome failing_world
          (perform_ocr isspace_latin1 isdigit_latin1 sample_render_error
             (sample_upload "notes.txt" "text/plain"))
  = Ok (HTTPException 500 (VDict [
      ("error", VStr (lit "cannot identify image file"));
      ("method", VStr (lit "tesseract"));
      ("file", VStr (lit "notes.txt"))
    ])).
Proof.
  apply (proj1 (perform_ocr_all_or_nothing isspace_latin1 isdigit_latin1 sample_render_error
                  failing_world
                  (sample_upload "notes.txt" "text/plain"))
           (Image_open [])).
  left. reflexivity.
Defined.

(** * Further properties *)

(** ** The layout on any columns *)

Lemma getitem_nth {A} (l : list A) i d :
  (i < List.length l)%nat -> getitem l i = Ok (nth i l d).
Proof.
  intros H. unfold getitem. now rewrite (nth_error_nth' l d H).
Qed.

Lemma getitem_out {A} (l : list A) i :
  (List.length l <= i)%nat -> getitem l i = Error index_error.
Proof.
  intros H. unfold getitem. apply nth_error_None in H. now rewrite H.
Qed.

Lemma has_index_true {A} (l : list A) i : has_index l i = true <-> (i < List.length l)%nat.
Proof. unfold has_index. apply Nat.ltb_lt. Qed.

Lemma has_index_false {A} (l : list A) i : has_index l i = false <-> (List.length l <= i)%nat.
Proof. unfold has_index. apply Nat.ltb_ge. Qed.

Section Columns.

Variable isspace : Z -> bool.

Lemma retained_row data i :
  (i < List.length (Data.text data))%nat ->
  retained isspace data i
  = if has_index (Data.conf data) i then Ok (kept isspace (row data i))
    else Error index_error.
Proof.
  intros Ht. unfold retained.
  destruct (has_index (Data.conf data) i) eqn:Hc.
  - apply has_index_true in Hc. rewrite (getitem_nth _ _ 0 Hc). cbn [rbind].
    unfold kept, averaged, row. cbn [tok_conf tok_text].
    destruct (not_sentinel (nth i (Data.conf data) 0)); [|reflexivity].
    now rewrite (getitem_nth (Data.text data) i (@nil Z : pystr) Ht).
  - apply has_index_false in Hc. now rewrite (getitem_out _ _ Hc).
Qed.

Lemma entry_row data i :
  (i < List.length (Data.text data))%nat ->
  has_index (Data.conf data) i = true ->
  entry data i
  = if has_index (Data.left data) i && has_index (Data.top data) i
       && has_index (Data.width data) i && has_index (Data.height data) i
       && has_index (Data.level data) i
    then Ok (entry_of (row data i))
    else Error index_error.
Proof.
  intros Ht Hc. apply has_index_true in Hc. unfold entry.
  rewrite (getitem_nth (Data.text data) i (@nil Z : pystr) Ht). cbn [rbind].
  rewrite (getitem_nth _ _ 0 Hc). cbn [rbind].
  destruct (has_index (Data.left data) i) eqn:H1; cbn [andb];
    [apply has_index_true in H1; rewrite (getitem_nth _ _ 0 H1); cbn [rbind]
    |apply has_index_false in H1; now rewrite (getitem_out _ _ H1)].
  destruct (has_index (Data.top data) i) eqn:H2; cbn [andb];
    [apply has_index_true in H2; rewrite (getitem_nth _ _ 0 H2); cbn [rbind]
    |apply has_index_false in H2; now rewrite (getitem_out _ _ H2)].
  destruct (has_index (Data.width data) i) eqn:H3; cbn [andb];
    [apply has_index_true in H3; rewrite (getitem_nth _ _ 0 H3); cbn [rbind]
    |apply has_index_false in H3; now rewrite (getitem_out _ _ H3)].
  destruct (has_index (Data.height data) i) eqn:H4; cbn [andb];
    [apply has_index_true in H4; rewrite (getitem_nth _ _ 0 H4); cbn [rbind]
    |apply has_index_false in H4; now rewrite (getitem_out _ _ H4)].
  destruct (has_index (Data.level data) i) eqn:H5; cbn [andb];
    [apply has_index_true in H5; rewrite (getitem_nth _ _ 0 H5); cbn [rbind]
    |apply has_index_false in H5; now rewrite (getitem_out _ _ H5)].
  reflexivity.
Qed.

Lemma layout_loop_rows data : forall indices results,
  Forall (fun i => (i < List.length (Data.text data))%nat) indices ->
  layout_loop isspace data indices results
  = if forallb (readable isspace data) indices
    then Ok (results ++ map entry_of (filter (kept isspace) (map (row data) indices)))
    else Error index_error.
Proof.
  induction indices as [|i rest IH]; intros results Hin.
  - cbn. now rewrite app_nil_r.
  - inversion Hin as [|? ? Hi Hrest]; subst.
    cbn [layout_loop forallb map filter]. rewrite (retained_row data i Hi).
    unfold readable at 1.
    destruct (has_index (Data.conf data) i) eqn:Hc; cbn [andb rbind]; [|reflexivity].
    destruct (kept isspace (row data i)) eqn:Hk; cbn [negb orb].
    + rewrite (entry_row data i Hi Hc).
      destruct (has_index (Data.left data) i && has_index (Data.top data) i
                && has_index (Data.width data) i && has_index (Data.height data) i
                && has_index (Data.level data) i); cbn [rbind]; [|reflexivity].
      rewrite (IH _ Hrest).
      destruct (forallb (readable isspace data) rest); [|reflexivity].
      cbn [map]. now rewrite <- app_assoc.
    + apply IH, Hrest.
Qed.

(** On any columns, the layout is the entries of the kept rows in
    their order when every row can be read, and IndexError otherwise. *)
Lemma layout_results_rows data :
  layout_results isspace data
  = if forallb (readable isspace data) (range (List.length (Data.text data)))
    then Ok (map entry_of (filter (kept isspace) (rows data)))
    else Error index_error.
Proof.
  unfold layout_results, rows. apply layout_loop_rows.
  apply Forall_forall. intros i Hi. unfold range in Hi. apply in_seq in Hi. lia.
Qed.

End Columns.

Lemma nth_of_nth_error {A} (l : list A) i d x : nth_error l i = Some x -> nth i l d = x.
Proof. intros H. now apply nth_error_nth. Qed.

Lemma has_index_nth_error {A B} (l : list A) (l' : list B) i :
  (nth_error l i = None <-> nth_error l' i = None) -> has_index l i = has_index l' i.
Proof.
  intros H. unfold has_index.
  destruct (Nat.ltb_spec i (List.length l)) as [L|L];
    destruct (Nat.ltb_spec i (List.length l')) as [L'|L']; try reflexivity.
  - apply nth_error_None in L'. apply H in L'. apply nth_error_None in L'. lia.
  - apply nth_error_None in L. apply H in L. apply nth_error_None in L. lia.
Qed.

Lemma nth_agree {A} (l l' : list A) i d :
  nth_error l i = nth_error l' i -> nth i l d = nth i l' d /\ has_index l i = has_index l' i.
Proof.
  intros H. split.
  - destruct (nth_error l i) as [x|] eqn:E.
    + now rewrite (nth_of_nth_error l i d x E), (nth_of_nth_error l' i d x (eq_sym H)).
    + symmetry in H. apply nth_error_None in E, H. now rewrite !nth_overflow.
  - apply has_index_nth_error. now rewrite H.
Qed.

Section ColumnTheorems.

Variable isspace : Z -> bool.

(** X1: when the confidence column is shorter than the text column the
    layout raises IndexError, whatever the other columns hold. *)
Theorem layout_short_confidence_column data :
  (List.length (Data.conf data) < List.length (Data.text data))%nat ->
  layout_results isspace data = Error index_error.
Proof.
  intros H. rewrite layout_results_rows.
  destruct (forallb (readable isspace data) (range (List.length (Data.text data))))
    eqn:E; [|reflexivity].
  rewrite forallb_forall in E.
  specialize (E (List.length (Data.conf data))).
  unfold readable in E. unfold has_index at 1 in E. rewrite Nat.ltb_irrefl in E.
  cbn in E. discriminate E. unfold range. apply in_seq. lia.
Qed.


(** X2: when no column is shorter than the text column the layout
    succeeds with the entries of the kept rows, in order; what the
    other columns hold beyond the length of the text column is not
    read. *)
Theorem layout_long_columns data :
  (List.length (Data.text data) <= List.length (Data.conf data))%nat ->
  (List.length (Data.text data) <= List.length (Data.left data))%nat ->
  (List.length (Data.text data) <= List.length (Data.top data))%nat ->
  (List.length (Data.text data) <= List.length (Data.width data))%nat ->
  (List.length (Data.text data) <= List.length (Data.height data))%nat ->
  (List.length (Data.text data) <= List.length (Data.level data))%nat ->
  layout_results isspace data = Ok (map entry_of (filter (kept isspace) (rows data)))
  /\ List.length (rows data) = List.length (Data.text data)
  /\ (forall i, (i < List.length (Data.text data))%nat ->
        nth_error (rows data) i = Some (row data i) /\
        nth_error (Data.text data) i = Some (tok_text (row data i)) /\
        nth_error (Data.conf data) i = Some (tok_conf (row data i)) /\
        nth_error (Data.left data) i = Some (tok_left (row data i)) /\
        nth_error (Data.top data) i = Some (tok_top (row data i)) /\
        nth_error (Data.width data) i = Some (tok_width (row data i)) /\
        nth_error (Data.height data) i = Some (tok_height (row data i)) /\
        nth_error (Data.level data) i = Some (tok_level (row data i))).
Proof.
  intros Hc Hl Ht Hw Hh Hv. split; [|split].
  - rewrite layout_results_rows.
    replace (forallb (readable isspace data) (range (List.length (Data.text data))))
      with true; [reflexivity|].
    symmetry. apply forallb_forall. intros i Hi. unfold range in Hi. apply in_seq in Hi.
    unfold readable, has_index.
    repeat match goal with
           | |- context [(i <? ?n)%nat] =>
               destruct (Nat.ltb_spec i n); [|lia]
           end.
    cbn. apply orb_true_r.
  - unfold rows, range. now rewrite length_map, length_seq.
  - intros i Hi. unfold rows, range.
    rewrite nth_error_map, nth_error_seq.
    destruct (Nat.ltb_spec i (List.length (Data.text data))); [|lia]. cbn.
    repeat split; apply nth_error_nth'; lia.
Qed.


(** X3: the layout reads the columns at the indices of the text column
    only: two answers of the engine with the same text column and the
    same values at those indices give the same layout, or the same
    failure. *)
Theorem layout_reads_text_indices data data' :
  Data.text data' = Data.text data ->
  (forall i, (i < List.length (Data.text data))%nat ->
     nth_error (Data.conf data') i = nth_error (Data.conf data) i /\
     nth_error (Data.left data') i = nth_error (Data.left data) i /\
     nth_error (Data.top data') i = nth_error (Data.top data) i /\
     nth_error (Data.width data') i = nth_error (Data.width data) i /\
     nth_error (Data.height data') i = nth_error (Data.height data) i /\
     nth_error (Data.level data') i = nth_error (Data.level data) i) ->
  layout_results isspace data' = layout_results isspace data.
Proof.
  intros Ht Hsame. rewrite !layout_results_rows. unfold rows. rewrite Ht.
  assert (R : forall i, In i (range (List.length (Data.text data))) ->
                row data' i = row data i /\
                readable isspace data' i = readable isspace data i).
  { intros i Hi. unfold range in Hi. apply in_seq in Hi.
    destruct (Hsame i ltac:(lia)) as (Hc & Hl & Hp & Hw & Hh & Hv).
    assert (E : row data' i = row data i).
    { unfold row. rewrite Ht.
      rewrite (proj1 (nth_agree _ _ i 0 Hc)), (proj1 (nth_agree _ _ i 0 Hl)),
        (proj1 (nth_agree _ _ i 0 Hp)), (proj1 (nth_agree _ _ i 0 Hw)),
        (proj1 (nth_agree _ _ i 0 Hh)), (proj1 (nth_agree _ _ i 0 Hv)).
      reflexivity. }
    split; [exact E|]. unfold readable. rewrite E.
    rewrite (proj2 (nth_agree _ _ i 0 Hc)), (proj2 (nth_agree _ _ i 0 Hl)),
      (proj2 (nth_agree _ _ i 0 Hp)), (proj2 (nth_agree _ _ i 0 Hw)),
      (proj2 (nth_agree _ _ i 0 Hh)), (proj2 (nth_agree _ _ i 0 Hv)).
    reflexivity. }
  assert (F : forallb (readable isspace data') (range (List.length (Data.text data)))
              = forallb (readable isspace data) (range (List.length (Data.text data)))).
  { induction (range (List.length (Data.text data))) as [|i l IH]; [reflexivity|].
    cbn. rewrite (proj2 (R i (or_introl eq_refl))), IH; [reflexivity|].
    intros j Hj. apply R. now right. }
  assert (M : map (row data') (range (List.length (Data.text data)))
              = map (row data) (range (List.length (Data.text data)))).
  { apply map_ext_in. intros i Hi. apply R, Hi. }
  now rewrite F, M.
Qed.


(** X4: whatever the engine answers, a layout that succeeds has at most
    as many entries as the text column, and each entry is that of a row
    whose confidence is not -1 and whose trimmed text is not empty;
    the only exception the loop raises is IndexError. *)
Theorem layout_entries_sound data :
  (exists results,
     layout_results isspace data = Ok results /\
     (List.length results <= List.length (Data.text data))%nat /\
     Forall (fun r =>
               exists i text conf,
                 nth_error (Data.text data) i = Some text /\
                 nth_error (Data.conf data) i = Some conf /\
                 conf <> -1 /\ strip isspace text <> [] /\
                 field "text" r = Some (VStr text) /\
                 field "confidence" r = Some (VInt conf))
            results)
  \/ layout_results isspace data = Error index_error.
Proof.
  rewrite layout_results_rows.
  destruct (forallb (readable isspace data) (range (List.length (Data.text data))))
    eqn:E; [left | right; reflexivity].
  eexists. split; [reflexivity|]. split.
  - rewrite length_map. etransitivity; [apply filter_length_le|].
    unfold rows, range. now rewrite length_map, length_seq.
  - rewrite forallb_forall in E. apply Forall_forall. intros r Hr.
    apply in_map_iff in Hr. destruct Hr as (t & <- & Ht).
    apply filter_In in Ht. destruct Ht as [Ht Hk].
    unfold rows in Ht. apply in_map_iff in Ht. destruct Ht as (i & <- & Hi).
    specialize (E i Hi). unfold range in Hi. apply in_seq in Hi.
    unfold readable in E. apply andb_prop in E. destruct E as [Hc _].
    apply has_index_true in Hc. apply kept_iff in Hk. destruct Hk as [Hconf Htext].
    exists i, (tok_text (row data i)), (tok_conf (row data i)).
    split; [apply nth_error_nth'; lia|]. split; [apply nth_error_nth'; exact Hc|].
    repeat split; assumption.
Qed.

End ColumnTheorems.

Lemma layout_short_confidence_column_sample :
  layout_results isspace_latin1
    (Data.mk [5; 5] [1; 2] [1; 2] [9; 9] [8; 8] [90] [lit "a"; lit "b"])
  = Error index_error.
Proof.
  apply (layout_short_confidence_column isspace_latin1
           (Data.mk [5; 5] [1; 2] [1; 2] [9; 9] [8; 8] [90] [lit "a"; lit "b"])).
  cbn. lia.
Defined.

Lemma layout_long_columns_sample :
  let data := Data.mk [5; 5; 4] [1; 2; 3] [1; 2; 3] [9; 9; 9] [8; 8; 8] [90; -1; 70]
                      [lit "a"; lit "b"] in
  layout_results isspace_latin1 data
  = Ok (map entry_of (filter (kept isspace_latin1) (rows data))).
Proof.
  apply (layout_long_columns isspace_latin1
           (Data.mk [5; 5; 4] [1; 2; 3] [1; 2; 3] [9; 9; 9] [8; 8; 8] [90; -1; 70]
                    [lit "a"; lit "b"])); cbn; lia.
Defined.

Lemma layout_reads_text_indices_sample :
  layout_results isspace_latin1
    (Data.mk [5; 5; 4] [1; 2; 3] [1; 2; 3] [9; 9; 9] [8; 8; 8] [90; -1; 70]
             [lit "a"; lit "b"])
  = layout_results isspace_latin1
      (Data.mk [5; 5] [1; 2] [1; 2] [9; 9] [8; 8] [90; -1] [lit "a"; lit "b"]).
Proof.
  apply (layout_reads_text_indices isspace_latin1
           (Data.mk [5; 5] [1; 2] [1; 2] [9; 9] [8; 8] [90; -1] [lit "a"; lit "b"])
           (Data.mk [5; 5; 4] [1; 2; 3] [1; 2; 3] [9; 9; 9] [8; 8; 8] [90; -1; 70]
                    [lit "a"; lit "b"])).
  - reflexivity.
  - intros i Hi. cbn in Hi.
    destruct i as [|[|i]]; [repeat split | repeat split | lia].
Defined.


(** ** The requests, call by call *)

Section RequestTheorems.

Variables isspace isdigit : Z -> bool.
Variable render_error : value -> option pystr.

(** X5: when a call of [POST /ocr-with-layout] raises, the answer is the
    HTTPException of status 500 whose detail holds the message and
    nothing else; the answer is either such a failure or the complete
    layout of a run in which no call raised. *)
Theorem ocr_with_layout_all_or_nothing (w : world) file :
  (forall c e,
     In (c, Some e) (trace w (ocr_with_layout isspace render_error file)) ->
     outcome w (ocr_with_layout isspace render_error file)
     = Ok (HTTPException 500 (VDict [("error", VStr e)])))
  /\ ((exists results,
         outcome w (ocr_with_layout isspace render_error file)
         = Ok (JSONResponse (VDict [
             ("success", VBool true);
             ("results", VList results);
             ("method", VStr (lit "tesseract-layout"));
             ("total_words", VInt (len results))
           ])) /\
         Forall (fun ev => snd ev = None)
                (trace w (ocr_with_layout isspace render_error file)))
      \/ (exists e,
            outcome w (ocr_with_layout isspace render_error file)
            = Ok (HTTPException 500 (VDict [("error", VStr e)])))).
Proof.
  rewrite ocr_with_layout_outcome, ocr_with_layout_trace. unfold layout_steps.
  destruct (outcome w (decode (content_type file) (contents file)))
    as [image|e0] eqn:Hd; cbn [rbind].
  - destruct (decode_success _ _ _ _ Hd) as (c0 & ->). cbn [app].
    destruct (w (image_to_data image psm)) as [data|e1]; cbn [rbind failure].
    + destruct (layout_results isspace data) as [results|e2]; cbn [rbind].
      * unfold json_response, layout_content.
        destruct (render_error _) as [e3|]; split.
        -- intros c e [H|[H|[]]]; discriminate.
        -- right. exists e3. reflexivity.
        -- intros c e [H|[H|[]]]; discriminate.
        -- left. exists results. split; [reflexivity | repeat constructor].
      * split.
        -- intros c e [H|[H|[]]]; discriminate.
        -- right. exists e2. reflexivity.
    + split.
      * intros c e [H|[H|[]]]; try discriminate.
        injection H as _ ->. reflexivity.
      * right. exists e1. reflexivity.
  - rewrite app_nil_r. split.
    + intros c e Hin.
      destruct (decode_failure _ _ _ _ Hd) as [(c0 & E)|(_ & c0 & E)];
        rewrite E in Hin; destruct Hin as [H|[]].
      * injection H as _ ->. reflexivity.
      * discriminate.
    + right. exists e0. reflexivity.
Qed.

(** X6: when the rasterizer returns no image for a PDF, both handlers
    answer with status 500 and the message of the IndexError that
    [images[0]] raises, and the engine is not called. *)
Theorem empty_pdf_is_a_failure (w : world) file :
  content_type file = Some pdf ->
  w (convert_from_bytes (contents file) 1 1) = Ok [] ->
  outcome w (perform_ocr isspace isdigit render_error file) = Ok (ocr_failure file index_error)
  /\ outcome w (ocr_with_layout isspace render_error file) = Ok (layout_failure index_error)
  /\ calls w (perform_ocr isspace isdigit render_error file)
     = [convert_from_bytes (contents file) 1 1]
  /\ calls w (ocr_with_layout isspace render_error file)
     = [convert_from_bytes (contents file) 1 1].
Proof.
  intros Hpdf Hw.
  assert (Hd : outcome w (decode (content_type file) (contents file)) = Error index_error).
  { rewrite Hpdf, decode_pdf_outcome, Hw. reflexivity. }
  rewrite perform_ocr_outcome, ocr_with_layout_outcome, perform_ocr_calls,
    ocr_with_layout_calls.
  unfold ocr_steps, layout_steps. rewrite Hd, Hpdf, decode_pdf_calls.
  repeat split.
Qed.

(** X7: neither handler goes on after a call has raised: the call that
    raised is the last call of the run. *)
Theorem no_call_after_a_failure (w : world) file :
  (forall before c e after,
     trace w (perform_ocr isspace isdigit render_error file)
     = before ++ (c, Some e) :: after ->
     after = [])
  /\ (forall before c e after,
        trace w (ocr_with_layout isspace render_error file) = before ++ (c, Some e) :: after ->
        after = []).
Proof.
  assert (L : forall (l before after : list (call * option pystr)) c e,
            l = before ++ (c, Some e) :: after ->
            (exists oks last, l = oks ++ last
                              /\ Forall (fun ev => snd ev = None) oks
                              /\ (List.length last <= 1)%nat) ->
            after = []).
  { intros l before after c e E (oks & last & E' & Hoks & Hlast).
    subst l. revert before E'. induction Hoks as [|ev oks Hev _ IH]; intros before E'.
    - cbn in E'. destruct last as [|x [|y last]]; cbn in Hlast; try lia.
      + destruct before; discriminate.
      + destruct before as [|b [|b' before]]; cbn in E'; try discriminate.
        injection E' as _ <-. reflexivity.
    - destruct before as [|b before]; cbn in E'.
      + injection E' as <- _. discriminate.
      + injection E' as _ E'. apply (IH before E'). }
  split; intros before c e after E; apply (L _ _ _ _ _ E); clear L E.
  - rewrite perform_ocr_trace.
    destruct (outcome w (decode (content_type file) (contents file)))
      as [image|e0] eqn:Hd.
    + destruct (decode_success _ _ _ _ Hd) as (c0 & ->).
      destruct (w (image_to_string image psm)) as [text|e1]; cbn [failure].
      * exists [(c0, None); (image_to_string image psm, None)],
               [(image_to_data image psm, failure (w (image_to_data image psm)))].
        split; [reflexivity|]. split; [repeat constructor | cbn; lia].
      * exists [(c0, None)], [(image_to_string image psm, Some e1)].
        split; [reflexivity|]. split; [repeat constructor | cbn; lia].
    + rewrite app_nil_r.
      destruct (decode_failure _ _ _ _ Hd) as [(c0 & ->)|(_ & c0 & ->)].
      * exists [], [(c0, Some e0)]. split; [reflexivity|]. split; [constructor | cbn; lia].
      * exists [(c0, None)], []. split; [reflexivity|].
        split; [repeat constructor | cbn; lia].
  - rewrite ocr_with_layout_trace.
    destruct (outcome w (decode (content_type file) (contents file)))
      as [image|e0] eqn:Hd.
    + destruct (decode_success _ _ _ _ Hd) as (c0 & ->).
      exists [(c0, None)],
             [(image_to_data image psm, failure (w (image_to_data image psm)))].
      split; [reflexivity|]. split; [repeat constructor | cbn; lia].
    + rewrite app_nil_r.
      destruct (decode_failure _ _ _ _ Hd) as [(c0 & ->)|(_ & c0 & ->)].
      * exists [], [(c0, Some e0)]. split; [reflexivity|]. split; [constructor | cbn; lia].
      * exists [(c0, None)], []. split; [reflexivity|].
        split; [repeat constructor | cbn; lia].
Qed.

(** X8: a run of [POST /ocr] that succeeds has made three calls: the
    decoding, then [image_to_string] and [image_to_data] on the decoded
    image, both with the configuration "--psm 1"; a run of
    [POST /ocr-with-layout] that succeeds has made two, the decoding
    and [image_to_data] with that configuration, and neither handler
    makes more calls than that in any run. *)
Theorem calls_of_a_success (w : world) file :
  (forall content,
     outcome w (perform_ocr isspace isdigit render_error file) = Ok (JSONResponse content) ->
     exists first image,
       outcome w (decode (content_type file) (contents file)) = Ok image /\
       calls w (decode (content_type file) (contents file)) = [first] /\
       calls w (perform_ocr isspace isdigit render_error file)
       = [first; image_to_string image (lit "--psm 1");
          image_to_data image (lit "--psm 1")])
  /\ (forall content,
        outcome w (ocr_with_layout isspace render_error file) = Ok (JSONResponse content) ->
        exists first image,
          outcome w (decode (content_type file) (contents file)) = Ok image /\
          calls w (decode (content_type file) (contents file)) = [first] /\
          calls w (ocr_with_layout isspace render_error file)
          = [first; image_to_data image (lit "--psm 1")])
  /\ (List.length (calls w (perform_ocr isspace isdigit render_error file)) <= 3)%nat
  /\ (List.length (calls w (ocr_with_layout isspace render_error file)) <= 2)%nat.
Proof.
  assert (D : exists first, calls w (decode (content_type file) (contents file)) = [first]).
  { unfold calls.
    destruct (outcome w (decode (content_type file) (contents file))) as [image|e] eqn:Hd.
    - destruct (decode_success _ _ _ _ Hd) as (c0 & ->). now exists c0.
    - destruct (decode_failure _ _ _ _ Hd) as [(c0 & ->)|(_ & c0 & ->)]; now exists c0. }
  destruct D as (first & Hfirst).
  rewrite perform_ocr_outcome, ocr_with_layout_outcome, perform_ocr_calls,
    ocr_with_layout_calls, Hfirst.
  unfold ocr_steps, layout_steps.
  destruct (outcome w (decode (content_type file) (contents file))) as [image|e0];
    cbn [rbind app].
  - split; [|split; [|split]].
    + intros content H. exists first, image. split; [reflexivity|]. split; [reflexivity|].
      destruct (w (image_to_string image psm)) as [text|e1]; [reflexivity|].
      cbn in H. discriminate.
    + intros content H. exists first, image. repeat split.
    + destruct (w (image_to_string image psm)); cbn; lia.
    + cbn. lia.
  - split; [|split; [|split]]; try (cbn; lia); intros content H; discriminate.
Qed.

End RequestTheorems.

Lemma empty_pdf_is_a_failure_sample :
  let w : world := fun c =>
    match c with
    | convert_from_bytes _ _ _ => Ok []
    | other => sample_world [] [] other
    end in
  let file := sample_upload "blank.pdf" "application/pdf" in
  outcome w (perform_ocr isspace_latin1 isdigit_latin1 sample_render_error file)
  = Ok (ocr_failure file index_error)
  /\ outcome w (ocr_with_layout isspace_latin1 sample_render_error file)
     = Ok (layout_failure index_error)
  /\ calls w (perform_ocr isspace_latin1 isdigit_latin1 sample_render_error file)
     = [convert_from_bytes (contents file) 1 1]
  /\ calls w (ocr_with_layout isspace_latin1 sample_render_error file)
     = [convert_from_bytes (contents file) 1 1].
Proof.
  apply (empty_pdf_is_a_failure isspace_latin1 isdigit_latin1 sample_render_error
           (fun c => match c with
                     | convert_from_bytes _ _ _ => Ok []
                     | other => sample_world [] [] other
                     end)
           (sample_upload "blank.pdf" "application/pdf")).
  - reflexivity.
  - reflexivity.
Defined.

(** ** Floats *)



Lemma div_rne_exact k d : 0 < d -> div_rne (k * d) d = k.
Proof.
  intros Hd. unfold div_rne. rewrite Z.div_mul, Z.mod_mul by lia.
  destruct (Z.compare_spec (2 * 0) d); [lia | reflexivity | lia].
Qed.

(** A quotient that is an integer below 2^53 is computed exactly. *)
Lemma nearest_exact s q b :
  0 < q < 2 ^ prec -> 0 < b ->
  exists x, nearest s (q * b) b = Ok x /\ fneg x = s /\ fexp x <= 0
            /\ fmant x = q * 2 ^ (- fexp x).
Proof.
  intros Hq Hb. assert (Ha : 0 < q * b) by nia.
  pose proof (norm_exp_bounds (q * b) b Ha Hb) as [Blo Bhi].
  unfold nearest. set (e := norm_exp (q * b) b) in *.
  assert (P52 : 0 < 2 ^ (prec - 1)) by reflexivity.
  assert (P53 : 2 ^ prec = 2 * 2 ^ (prec - 1)) by reflexivity.
  assert (He : e <= 0).
  { destruct (Z.le_gt_cases e 0) as [|Hpos]; [assumption|].
    rewrite scaled_nonneg in Blo by lia. cbn [fst snd] in Blo.
    assert (2 <= 2 ^ e).
    { change 2 with (2 ^ 1) at 1. apply Z.pow_le_mono_r; lia. }
    rewrite P53 in Hq. set (X := 2 ^ (prec - 1)) in *. set (Y := 2 ^ e) in *.
    assert (X * Y * b <= q * b) by lia.
    assert (X * Y <= q) by nia. nia. }
  assert (HD : 0 < 2 ^ (- e)) by (apply pow2_pos; lia).
  assert (S : exists d, scaled (q * b) b e = (q * 2 ^ (- e) * d, d) /\ 0 < d).
  { destruct (Z.eq_dec e 0) as [->|Ne].
    - exists (b * 2 ^ 0). cbn. split; [f_equal; lia | lia].
    - exists b. rewrite scaled_neg by lia. split; [f_equal; ring | exact Hb]. }
  destruct S as (d & S & Hd). rewrite S in Blo, Bhi. cbn [fst snd] in Blo, Bhi.
  assert (Hm : q * 2 ^ (- e) < 2 ^ prec) by nia.
  assert (Hmin : emin <= e).
  { assert (L : 2 ^ (- e) < 2 ^ prec) by nia.
    apply Z.pow_lt_mono_r_iff in L; unfold prec, emin in *; lia. }
  rewrite Z.max_r by exact Hmin. rewrite S, (div_rne_exact _ d Hd).
  destruct (Z.eqb_spec (q * 2 ^ (- e)) (2 ^ prec)) as [E|_]; [lia|].
  destruct (Z.ltb_spec (emax - prec) e) as [Hov|_]; [unfold emax, prec in Hov; lia|].
  eexists. split; [reflexivity|]. cbn [fneg fmant fexp]. repeat split. exact He.
Qed.

Lemma round_digits_integer s q e :
  e <= 0 -> round_digits (F64.mk s (q * 2 ^ (- e)) e) 2 = 100 * q.
Proof.
  intros He. unfold round_digits. cbn [fmant fexp].
  rewrite scaled_nonneg by lia. change (10 ^ 2) with 100. rewrite Z.mul_1_l.
  replace (100 * (q * 2 ^ (- e))) with (100 * q * 2 ^ (- e)) by ring.
  apply div_rne_exact, pow2_pos. lia.
Qed.

Lemma sum_uniform c l : Forall (fun x => x = c) l -> sum l = c * len l.
Proof.
  induction 1 as [|x l Hx _ IH]; [cbn; lia|].
  rewrite sum_cons, len_cons, IH, Hx. ring.
Qed.

(** ** More on the confidence *)

(** X10: when every confidence other than -1 is the same number [c]
    (a single word, say), the reported confidence is [c] itself, as a
    float, whatever the number of tokens. *)
Theorem uniform_confidence_is_exact conf c :
  0 <= c < 2 ^ 53 ->
  (forall x, In x conf -> x = -1 \/ x = c) ->
  (exists x, In x conf /\ x <> -1) ->
  exists y, reported_confidence conf = Ok (VFloat y) /\ is_integer y c.
Proof.
  intros Hc Hall Hex.
  pose proof (filter_nonempty conf Hex) as Hne.
  assert (Hu : Forall (fun x => x = c) (filter not_sentinel conf)).
  { apply Forall_forall. intros x Hx. apply filter_In in Hx. destruct Hx as [Hin Hs].
    destruct (Hall x Hin) as [-> | ->]; [discriminate | reflexivity]. }
  unfold reported_confidence, avg_confidence.
  set (l := filter not_sentinel conf) in *.
  assert (Hn : 0 < len l).
  { destruct l; [congruence|]. rewrite len_cons. pose proof (len_nonneg l). lia. }
  rewrite (sum_uniform c l Hu).
  destruct l as [|x0 l0] eqn:El; [congruence|]. rewrite <- El in *. clear El x0 l0.
  unfold int_truediv.
  destruct (Z.eqb_spec (len l) 0) as [|_]; [lia|].
  destruct (Z.ltb_spec (len l) 0) as [|_]; [lia|].
  destruct (Z.eqb_spec (c * len l) 0) as [Z0|NZ].
  - assert (c = 0) by nia. subst c.
    exists (zero (xorb (0 * len l <? 0) false)). split; [reflexivity|].
    unfold is_integer. cbn. repeat split; try lia; try (intros H; contradiction).
  - assert (Hc' : 0 < c) by nia.
    destruct (Z.ltb_spec (c * len l) 0) as [|_]; [nia|]. cbn [xorb].
    rewrite !Z.abs_eq by nia.
    destruct (nearest_exact false c (len l) ltac:(change (2 ^ prec) with (2 ^ 53); lia) Hn)
      as (x & Hx & Hs & He & Hm).
    rewrite Hx. cbn [rbind round]. unfold F64.round.
    destruct x as [sx mx ex]. cbn [fneg fmant fexp] in *. subst sx mx.
    rewrite (round_digits_integer false c ex He). cbn [fneg].
    unfold of_decimal. destruct (Z.eqb_spec (100 * c) 0) as [|_]; [lia|].
    change (10 ^ 2) with 100. rewrite (Z.mul_comm 100 c).
    destruct (nearest_exact false c 100 ltac:(change (2 ^ prec) with (2 ^ 53); lia)
                ltac:(lia)) as (y & Hy & Hsy & Hey & Hmy).
    rewrite Hy. cbn [rbind]. exists y. split; [reflexivity|].
    unfold is_integer. rewrite Z.abs_eq by lia. repeat split; try assumption.
    intros _. rewrite Hsy. symmetry. apply Z.ltb_ge. lia.
Qed.

Lemma uniform_confidence_is_exact_sample :
  exists y, reported_confidence [-1; 96; -1; 96] = Ok (VFloat y) /\ is_integer y 96.
Proof.
  apply (uniform_confidence_is_exact [-1; 96; -1; 96] 96).
  - split; [lia | reflexivity].
  - intros x [<-|[<-|[<-|[<-|[]]]]]; auto.
  - exists 96. split; [cbn; auto | discriminate].
Defined.

(** X11: for confidences of the data model the reported confidence lies
    between 0 and 100: it is the integer 0, or a float [y] with
    0 <= fmant * 2^fexp <= 100, the float of [h/100] for an [h] from
    0 to 10000 nearest to a hundred times the mean of the confidences
    other than -1. *)
Theorem reported_confidence_within_0_100 conf :
  Forall confidence_in_range conf -> Z.of_nat (List.length conf) < 2 ^ 32 ->
  reported_confidence conf = Ok (VInt 0)
  \/ exists h y,
       reported_confidence conf = Ok (VFloat y) /\
       mean_rounds_to (detections conf) h /\
       0 <= h <= 10000 /\ float_of_hundredths y h /\ float_in_0_100 y.
Proof.
  intros Hr Hl.
  destruct (reported_confidence_cases conf Hr Hl) as [H|(h & y & Hc & Hm & Hh & Hy & Hb)].
  - left. exact H.
  - right. exists h, y. split; [exact Hc|]. split; [exact Hm|]. split; [exact Hh|].
    split; assumption.
Qed.

Lemma reported_confidence_within_0_100_sample :
  reported_confidence [100; -1; 100; 99] = Ok (VInt 0)
  \/ exists h y,
       reported_confidence [100; -1; 100; 99] = Ok (VFloat y) /\
       mean_rounds_to (detections [100; -1; 100; 99]) h /\
       0 <= h <= 10000 /\ float_of_hundredths y h /\ float_in_0_100 y.
Proof.
  apply (reported_confidence_within_0_100 [100; -1; 100; 99]).
  - repeat (constructor; [unfold confidence_in_range; lia|]). constructor.
  - reflexivity.
Defined.

(** The confidences 100, -1, 100, 99 are reported as 99.67, and 100
    throughout as 100. *)
Example reported_confidence_bounds :
  reported_confidence [100; -1; 100; 99] = Ok (VFloat (F64.mk false 7013652732187771 (-46)))
  /\ float_in_0_100 (F64.mk false 7013652732187771 (-46))
  /\ reported_confidence [100; 100] = Ok (VFloat (F64.mk false 7036874417766400 (-46)))
  /\ float_in_0_100 (F64.mk false 7036874417766400 (-46)).
Proof.
  assert (B : forall m, 0 <= m <= 100 * 2 ^ 46 -> float_in_0_100 (F64.mk false m (-46))).
  { intros m Hm. unfold float_in_0_100. cbn [fneg fmant fexp]. split; [reflexivity|].
    split; [lia | exact Hm]. }
  split; [vm_compute; reflexivity|]. split; [apply B; vm_compute; split; discriminate|].
  split; [vm_compute; reflexivity|]. apply B. vm_compute. split; discriminate.
Qed.

Lemma sum_app l1 l2 : sum (l1 ++ l2) = sum l1 + sum l2.
Proof.
  induction l1 as [|c l1 IH]; [reflexivity|].
  cbn [app]. rewrite !sum_cons, IH. lia.
Qed.

Lemma filter_permutation {A} (f : A -> bool) l l' :
  Permutation.Permutation l l' -> Permutation.Permutation (filter f l) (filter f l').
Proof.
  induction 1 as [|x l l' _ IH|x y l|l l' l'' _ IH1 _ IH2]; cbn.
  - constructor.
  - destruct (f x); [now constructor | exact IH].
  - destruct (f x), (f y); try apply Permutation.Permutation_refl.
    apply Permutation.perm_swap.
  - eapply Permutation.perm_trans; eassumption.
Qed.

Lemma sum_permutation l l' : Permutation.Permutation l l' -> sum l = sum l'.
Proof.
  induction 1 as [|x l l' _ IH|x y l|l l' l'' _ IH1 _ IH2].
  - reflexivity.
  - now rewrite !sum_cons, IH.
  - rewrite !sum_cons. lia.
  - congruence.
Qed.

Lemma avg_confidence_of_filtered conf conf' :
  sum (filter not_sentinel conf) = sum (filter not_sentinel conf') ->
  len (filter not_sentinel conf) = len (filter not_sentinel conf') ->
  avg_confidence conf = avg_confidence conf'.
Proof.
  intros Hs Hl. unfold avg_confidence. rewrite Hs, Hl.
  destruct (filter not_sentinel conf) as [|c l], (filter not_sentinel conf') as [|c' l'];
    try reflexivity; unfold len in Hl; cbn [List.length] in Hl; lia.
Qed.

(** X12: the reported confidence depends neither on the order of the
    tokens nor on the tokens of confidence -1: a permutation of the
    confidences, and the confidences with every -1 removed or more -1
    put in, report the same. *)
Theorem reported_confidence_invariant conf :
  (forall conf', Permutation.Permutation conf conf' ->
                 reported_confidence conf' = reported_confidence conf)
  /\ reported_confidence (filter not_sentinel conf) = reported_confidence conf
  /\ (forall before after,
        conf = before ++ after ->
        reported_confidence (before ++ -1 :: after) = reported_confidence conf).
Proof.
  unfold reported_confidence. split; [|split].
  - intros conf' Hp. f_equal. symmetry. apply avg_confidence_of_filtered.
    + apply sum_permutation, filter_permutation, Hp.
    + unfold len. f_equal. apply Permutation.Permutation_length, filter_permutation, Hp.
  - f_equal. apply avg_confidence_of_filtered.
    + f_equal. induction conf as [|c l IH]; [reflexivity|]. cbn [filter].
      destruct (not_sentinel c) eqn:E; cbn [filter]; [rewrite E|]; now rewrite IH.
    + f_equal. induction conf as [|c l IH]; [reflexivity|]. cbn [filter].
      destruct (not_sentinel c) eqn:E; cbn [filter]; [rewrite E|]; now rewrite IH.
  - intros before after ->. f_equal. apply avg_confidence_of_filtered;
      rewrite !filter_app; reflexivity.
Qed.

(** ** More on the metadata *)

Lemma split_on_from_prefix sep p : forall seg rest,
  ~ In sep p ->
  split_on_from sep seg (p ++ rest) = split_on_from sep (rev p ++ seg) rest.
Proof.
  induction p as [|c p IH]; intros seg rest Hp; [reflexivity|].
  cbn [app split_on_from]. destruct (Z.eqb_spec c sep) as [->|N].
  - exfalso. apply Hp. now left.
  - rewrite IH by (intros H; apply Hp; now right).
    cbn [rev]. now rewrite <- app_assoc.
Qed.

(** Joining and splitting again returns the parts, when there is a
    part and no part contains the separator. *)
Lemma split_on_of_join sep parts :
  parts <> [] -> Forall (fun p => ~ In sep p) parts ->
  split_on sep (join sep parts) = parts.
Proof.
  intros Hne Hall. unfold split_on.
  induction Hall as [|p rest Hp Hrest IH]; [congruence|].
  destruct rest as [|q rest].
  - cbn [join]. rewrite <- (app_nil_r p) at 1.
    rewrite split_on_from_prefix by exact Hp. cbn. now rewrite app_nil_r, rev_involutive.
  - rewrite join_cons, split_on_from_prefix by exact Hp.
    cbn [split_on_from]. rewrite Z.eqb_refl, app_nil_r, rev_involutive.
    f_equal. apply IH. discriminate.
Qed.

Lemma unlit_lit s : unlit (lit s) = s.
Proof.
  induction s as [|c s IH]; [reflexivity|]. cbn.
  now rewrite Nat2Z.id, ascii_nat_embedding, IH.
Qed.

Lemma int_of_str_of_int z : int_of_str (str_of_int z) = Some z.
Proof.
  unfold int_of_str, str_of_int. rewrite unlit_lit, NilZero.isi.
  - cbn. f_equal. apply DecimalZ.of_to.
  - destruct z; cbn; try discriminate.
    intros [= H]. now apply (Unsigned.to_uint_nonnil p).
  - destruct z; cbn; try discriminate.
    intros [= H]. now apply (Unsigned.to_uint_nonnil p).
Qed.

Lemma lit_uint_digits d :
  Forall (fun c => 48 <= c <= 57) (lit (NilEmpty.string_of_uint d)).
Proof. induction d; cbn; constructor; (lia || assumption). Qed.

Lemma str_of_int_chars z : Forall (fun c => c = 45 \/ 48 <= c <= 57) (str_of_int z).
Proof.
  assert (U : forall d, Forall (fun c => c = 45 \/ 48 <= c <= 57)
                               (lit (NilZero.string_of_uint d))).
  { intros d. eapply Forall_impl; [intros c H; right; exact H|].
    destruct d; try apply lit_uint_digits. cbn. constructor; [lia | constructor]. }
  unfold str_of_int. destruct (Z.to_int z) as [d|d]; cbn [NilZero.string_of_int].
  - apply U.
  - cbn [lit]. constructor; [now left | apply U].
Qed.

Lemma str_of_int_no_x z : ~ In 120 (str_of_int z).
Proof.
  intros H. pose proof (str_of_int_chars z) as F. rewrite Forall_forall in F.
  specialize (F 120 H). lia.
Qed.

Section MetadataTheorems.

Variables isspace isdigit : Z -> bool.
Variable render_error : value -> option pystr.

(** X13: [image_size] can be read back: split at 'x' it gives two
    decimals, which are the width and the height of the image. *)
Theorem image_size_reads_back text image :
  exists s,
    field "image_size" (metadata isspace isdigit text image) = Some (VStr s) /\
    split_on 120 s = [str_of_int (fst (size image)); str_of_int (snd (size image))] /\
    parse_size s = Some (size image).
Proof.
  eexists. split; [reflexivity|].
  assert (S : split_on 120 (str_of_int (fst (size image)) ++ lit "x"
                            ++ str_of_int (snd (size image)))
              = [str_of_int (fst (size image)); str_of_int (snd (size image))]).
  { change (str_of_int (fst (size image)) ++ lit "x" ++ str_of_int (snd (size image)))
      with (join 120 [str_of_int (fst (size image)); str_of_int (snd (size image))]).
    apply split_on_of_join; [discriminate|].
    constructor; [apply str_of_int_no_x|]. constructor; [apply str_of_int_no_x|].
    constructor. }
  split; [exact S|]. unfold parse_size. rewrite S, !int_of_str_of_int.
  now destruct (size image).
Qed.

(** X14: [has_currency] is true exactly when the text has one of the
    characters $, £, € and ¥. *)
Theorem has_currency_iff text image :
  field "has_currency" (metadata isspace isdigit text image) = Some (VBool true)
  <-> exists c, In c text /\ (c = 36 \/ c = 163 \/ c = 8364 \/ c = 165).
Proof.
  assert (F : field "has_currency" (metadata isspace isdigit text image)
              = Some (VBool (existsb (fun c => existsb (Z.eqb c) currency_symbols) text)))
    by reflexivity.
  rewrite F.
  assert (C : forall c, existsb (Z.eqb c) currency_symbols = true
                        <-> c = 36 \/ c = 163 \/ c = 8364 \/ c = 165).
  { intros c. unfold currency_symbols. cbn [existsb].
    rewrite !orb_true_iff, !Z.eqb_eq. intuition discriminate. }
  split.
  - intros [= H]. apply existsb_exists in H. destruct H as (c & Hin & Hc).
    exists c. split; [exact Hin | now apply C].
  - intros (c & Hin & Hc). do 2 f_equal. apply existsb_exists.
    exists c. split; [exact Hin | now apply C].
Qed.

Lemma word_starts_bound s : forall after,
  (2 * word_starts isspace after s <= List.length s + (if after then 1 else 0))%nat.
Proof.
  induction s as [|c s IH]; intros after; cbn [word_starts List.length].
  - destruct after; lia.
  - specialize (IH (isspace c)).
    destruct after, (isspace c); cbn [andb negb] in *; lia.
Qed.

Lemma word_starts_blank s :
  word_starts isspace true s = 0%nat <-> blank isspace s = true.
Proof.
  unfold blank. induction s as [|c s IH]; [cbn; tauto|].
  cbn [word_starts forallb]. destruct (isspace c); cbn [andb negb].
  - cbn [Nat.add]. exact IH.
  - split; [intros H; cbn in H; lia | discriminate].
Qed.

(** X15: the counts agree with one another: there are at most
    (char_count + 1) / 2 words, and none exactly when the text is
    blank; there are between 1 and char_count + 1 lines, and one
    exactly when the text has no newline. *)
Theorem metadata_counts_consistent text image :
  exists chars words lines,
    field "char_count" (metadata isspace isdigit text image) = Some (VInt chars) /\
    field "word_count" (metadata isspace isdigit text image) = Some (VInt words) /\
    field "line_count" (metadata isspace isdigit text image) = Some (VInt lines) /\
    0 <= words /\ 2 * words <= chars + 1 /\
    1 <= lines <= chars + 1 /\
    (words = 0 <-> blank isspace text = true) /\
    (lines = 1 <-> ~ In newline text).
Proof.
  exists (len text), (len (split isspace text)), (len (split_on newline text)).
  split; [reflexivity|]. split; [reflexivity|]. split; [reflexivity|].
  unfold len. rewrite split_length, split_on_length.
  pose proof (word_starts_bound text true) as W. cbv iota in W.
  pose proof (count_occ_bound Z.eq_dec newline text) as L.
  split; [lia|]. split; [lia|]. split; [lia|]. split.
  - rewrite <- word_starts_blank. lia.
  - rewrite (count_occ_not_In Z.eq_dec). lia.
Qed.

(** X16: when the decoding gives an image, both calls of the engine
    return and the confidences are of the data model, [POST /ocr]
    builds the body of a success: the text is the engine's text
    unchanged, [char_count] is its length and the confidence is the
    reported confidence of the engine's confidences, the integer 0 or
    a float between 0 and 100.  The answer is that body with status
    200 when [JSONResponse] encodes it, and the failure of the
    encoding with status 500 when it does not. *)
Theorem perform_ocr_succeeds (w : world) file image text data :
  outcome w (decode (content_type file) (contents file)) = Ok image ->
  w (image_to_string image psm) = Ok text ->
  w (image_to_data image psm) = Ok data ->
  Forall confidence_in_range (Data.conf data) ->
  Z.of_nat (List.length (Data.conf data)) < 2 ^ 32 ->
  exists content confidence,
    content = VDict [
      ("success", VBool true);
      ("text", VStr text);
      ("confidence", confidence);
      ("method", VStr (lit "tesseract"));
      ("metadata", metadata isspace isdigit text image)
    ] /\
    reported_confidence (Data.conf data) = Ok confidence /\
    (confidence = VInt 0 \/ exists y, confidence = VFloat y /\ float_in_0_100 y) /\
    field "char_count" (metadata isspace isdigit text image)
    = Some (VInt (Z.of_nat (List.length text))) /\
    (render_error content = None ->
     outcome w (perform_ocr isspace isdigit render_error file) = Ok (JSONResponse content) /\
     status (JSONResponse content) = 200) /\
    (forall e, render_error content = Some e ->
     outcome w (perform_ocr isspace isdigit render_error file)
     = Ok (HTTPException 500 (VDict [
         ("error", VStr e);
         ("method", VStr (lit "tesseract"));
         ("file", of_option (filename file))
       ]))).
Proof.
  intros Hd Ht Hdata Hr Hl.
  assert (Hc : exists confidence,
             reported_confidence (Data.conf data) = Ok confidence /\
             (confidence = VInt 0 \/ exists y, confidence = VFloat y /\ float_in_0_100 y)).
  { destruct (reported_confidence_cases _ Hr Hl) as [H|(h & y & H & _ & _ & _ & Hb)].
    - exists (VInt 0). split; [exact H | now left].
    - exists (VFloat y). split; [exact H|]. right. now exists y. }
  destruct Hc as (confidence & Hc & Hb).
  eexists. exists confidence. split; [reflexivity|]. split; [exact Hc|].
  split; [exact Hb|]. split; [reflexivity|].
  rewrite perform_ocr_outcome. unfold ocr_steps.
  rewrite Hd. cbn [rbind]. rewrite Ht. cbn [rbind]. rewrite Hdata. cbn [rbind].
  rewrite Hc. cbn [rbind]. unfold json_response, ocr_content.
  split; [intros ->; split; reflexivity | intros e ->; reflexivity].
Qed.

End MetadataTheorems.

Lemma perform_ocr_succeeds_sample :
  let w := sample_world (lit "Total 42") sample_tokens in
  let file := sample_upload "scan.png" "image/png" in
  let text := lit "Total 42" in
  let data := data_of sample_tokens in
  exists content confidence,
    content = VDict [
      ("success", VBool true);
      ("text", VStr text);
      ("confidence", confidence);
      ("method", VStr (lit "tesseract"));
      ("metadata", metadata isspace_latin1 isdigit_latin1 text sample_image)
    ] /\
    reported_confidence (Data.conf data) = Ok confidence /\
    (confidence = VInt 0 \/ exists y, confidence = VFloat y /\ float_in_0_100 y) /\
    field "char_count" (metadata isspace_latin1 isdigit_latin1 text sample_image)
    = Some (VInt (Z.of_nat (List.length text))) /\
    (sample_render_error content = None ->
     outcome w (perform_ocr isspace_latin1 isdigit_latin1 sample_render_error file)
     = Ok (JSONResponse content) /\
     status (JSONResponse content) = 200) /\
    (forall e, sample_render_error content = Some e ->
     outcome w (perform_ocr isspace_latin1 isdigit_latin1 sample_render_error file)
     = Ok (HTTPException 500 (VDict [
         ("error", VStr e);
         ("method", VStr (lit "tesseract"));
         ("file", of_option (filename file))
       ]))).
Proof.
  apply (perform_ocr_succeeds isspace_latin1 isdigit_latin1 sample_render_error
           (sample_world (lit "Total 42") sample_tokens)
           (sample_upload "scan.png" "image/png")
           sample_image (lit "Total 42") (data_of sample_tokens)).
  - reflexivity.
  - reflexivity.
  - reflexivity.
  - repeat (constructor; [unfold confidence_in_range; cbn; lia|]). constructor.
  - reflexivity.
Defined.

(** ** More on the strings *)

Section StringTheorems.

Variable isspace : Z -> bool.

(** X17: [strip] takes away a blank start and a blank end and nothing
    else: what is left neither begins nor ends with whitespace, and
    stripping it again changes nothing. *)
Theorem strip_spec s :
  exists lead trail,
    s = lead ++ strip isspace s ++ trail /\
    blank isspace lead = true /\ blank isspace trail = true /\
    (forall c rest, strip isspace s = c :: rest -> isspace c = false) /\
    (forall c init, strip isspace s = init ++ [c] -> isspace c = false) /\
    strip isspace (strip isspace s) = strip isspace s.
Proof.
  destruct (strip_trimmed isspace s) as (lead & trail & E & Bl & Bt & Hh & Hl).
  exists lead, trail. split; [exact E|].
  split; [apply forallb_forall, Forall_forall, Bl|].
  split; [apply forallb_forall, Forall_forall, Bt|].
  split; [exact Hh|]. split; [exact Hl | apply strip_strip].
Qed.

Lemma split_from_word w : forall word rest,
  forallb (nonspace isspace) w = true ->
  split_from isspace word (w ++ rest) = split_from isspace (rev w ++ word) rest.
Proof.
  induction w as [|c w IH]; intros word rest Hw; [reflexivity|].
  cbn in Hw. apply andb_prop in Hw. destruct Hw as [Hc Hw].
  unfold nonspace in Hc. apply negb_true_iff in Hc.
  cbn [app split_from]. rewrite Hc, IH by exact Hw.
  cbn [rev]. now rewrite <- app_assoc.
Qed.

(** X18: [split] returns the words of a text made of words with one
    space between them: it undoes [" ".join]. *)
Theorem split_of_join words :
  isspace space = true ->
  Forall (fun w => w <> [] /\ forallb (nonspace isspace) w = true) words ->
  split isspace (join space words) = words.
Proof.
  intros Hs Hall. unfold split.
  induction Hall as [|w rest [Hne Hw] Hrest IH]; [reflexivity|].
  destruct rest as [|q rest].
  - cbn [join]. rewrite <- (app_nil_r w) at 1.
    rewrite split_from_word by exact Hw. cbn [split_from].
    rewrite app_nil_r.
    destruct (rev w) eqn:E; [|now rewrite <- E, rev_involutive].
    apply (f_equal (@rev Z)) in E. rewrite rev_involutive in E. contradiction.
  - rewrite join_cons, split_from_word by exact Hw.
    cbn [split_from]. rewrite Hs, app_nil_r.
    destruct (rev w) eqn:E.
    + apply (f_equal (@rev Z)) in E. rewrite rev_involutive in E. contradiction.
    + rewrite <- E, rev_involutive. f_equal. exact IH.
Qed.

End StringTheorems.

Lemma split_of_join_sample :
  split isspace_latin1 (join space [lit "INVOICE"; lit "$100"])
  = [lit "INVOICE"; lit "$100"].
Proof.
  apply (split_of_join isspace_latin1 [lit "INVOICE"; lit "$100"]).
  - reflexivity.
  - repeat (constructor; [split; [discriminate | reflexivity]|]). constructor.
Defined.

(** X19: splitting at a separator undoes joining with it, for at least
    one part and parts that do not contain the separator: with the
    converse, that joining undoes splitting, the segments of a text
    determine it and are determined by it. *)
Theorem split_on_inverts_join sep parts :
  parts <> [] -> Forall (fun p => ~ In sep p) parts ->
  split_on sep (join sep parts) = parts.
Proof. apply split_on_of_join. Qed.

Lemma split_on_inverts_join_sample :
  split_on newline (join newline [lit "a"; []; lit "b"]) = [lit "a"; []; lit "b"].
Proof.
  apply (split_on_inverts_join newline [lit "a"; []; lit "b"]).
  - discriminate.
  - repeat (constructor; [cbn; intros H; repeat destruct H as [H|H]; try discriminate H;
                          try contradiction|]).
    constructor.
Defined.

(** ** Failure to decode, and the health check *)

(** X20: when the upload cannot be decoded, both handlers answer with
    status 500 and the message of the decoder, [POST /ocr] naming the
    method and the file as well, and the engine is not called. *)
Theorem undecodable_upload isspace isdigit render_error (w : world) file e :
  outcome w (decode (content_type file) (contents file)) = Error e ->
  outcome w (perform_ocr isspace isdigit render_error file)
  = Ok (HTTPException 500 (VDict [
      ("error", VStr e);
      ("method", VStr (lit "tesseract"));
      ("file", of_option (filename file))
    ]))
  /\ outcome w (ocr_with_layout isspace render_error file)
     = Ok (HTTPException 500 (VDict [("error", VStr e)]))
  /\ calls w (perform_ocr isspace isdigit render_error file)
     = calls w (ocr_with_layout isspace render_error file)
  /\ exists c, calls w (perform_ocr isspace isdigit render_error file) = [c]
               /\ (c = convert_from_bytes (contents file) 1 1
                   \/ c = Image_open (contents file)).
Proof.
  intros Hd.
  rewrite perform_ocr_outcome, ocr_with_layout_outcome, perform_ocr_calls,
    ocr_with_layout_calls.
  unfold ocr_steps, layout_steps. rewrite Hd. cbn [rbind]. rewrite !app_nil_r.
  split; [reflexivity|]. split; [reflexivity|]. split; [reflexivity|].
  destruct (opt_str_eqb (content_type file) pdf) eqn:N.
  - apply opt_str_eqb_eq in N. rewrite N, decode_pdf_calls. eexists. split; eauto.
  - apply opt_str_eqb_neq in N. rewrite (decode_other_calls w _ _ N).
    eexists. split; eauto.
Qed.

Lemma undecodable_upload_sample :
  let file := sample_upload "notes.txt" "text/plain" in
  let e := lit "cannot identify image file" in
  outcome failing_world (perform_ocr isspace_latin1 isdigit_latin1 sample_render_error file)
  = Ok (HTTPException 500 (VDict [
      ("error", VStr e);
      ("method", VStr (lit "tesseract"));
      ("file", of_option (filename file))
    ]))
  /\ outcome failing_world (ocr_with_layout isspace_latin1 sample_render_error file)
     = Ok (HTTPException 500 (VDict [("error", VStr e)]))
  /\ calls failing_world (perform_ocr isspace_latin1 isdigit_latin1 sample_render_error file)
     = calls failing_world (ocr_with_layout isspace_latin1 sample_render_error file)
  /\ exists c, calls failing_world
                       (perform_ocr isspace_latin1 isdigit_latin1 sample_render_error file)
               = [c]
               /\ (c = convert_from_bytes (contents file) 1 1
                   \/ c = Image_open (contents file)).
Proof.
  apply (undecodable_upload isspace_latin1 isdigit_latin1 sample_render_error failing_world
           (sample_upload "notes.txt" "text/plain") (lit "cannot identify image file")).
  reflexivity.
Defined.

(** X21: [POST /ocr] reads the confidence column of the engine's data
    and no other: with the same confidences the answer is the same,
    whatever the text, box and level columns hold and however long
    they are. *)
Theorem perform_ocr_reads_conf_only isspace isdigit render_error (w w' : world) file image
    data data' :
  outcome w (decode (content_type file) (contents file)) = Ok image ->
  (forall c, is_data c = false -> w' c = w c) ->
  w (image_to_data image psm) = Ok data ->
  w' (image_to_data image psm) = Ok data' ->
  Data.conf data' = Data.conf data ->
  outcome w' (perform_ocr isspace isdigit render_error file)
  = outcome w (perform_ocr isspace isdigit render_error file).
Proof.
  intros Hd Hsame Hw Hw' Hconf.
  assert (Hd' : outcome w' (decode (content_type file) (contents file))
                = outcome w (decode (content_type file) (contents file))).
  { destruct (opt_str_eqb (content_type file) pdf) eqn:N.
    - apply opt_str_eqb_eq in N. rewrite N, !decode_pdf_outcome.
      now rewrite (Hsame (convert_from_bytes (contents file) 1 1) eq_refl).
    - apply opt_str_eqb_neq in N. rewrite !decode_other_outcome by exact N.
      apply (Hsame (Image_open (contents file)) eq_refl). }
  rewrite !perform_ocr_outcome. unfold ocr_steps.
  rewrite Hd', Hd. cbn [rbind].
  rewrite (Hsame (image_to_string image psm) eq_refl).
  rewrite Hw, Hw'.
  destruct (w (image_to_string image psm)); cbn [rbind]; [rewrite Hconf|]; reflexivity.
Qed.

Lemma perform_ocr_reads_conf_only_sample :
  outcome (sample_world (lit "Total 42") [sample_token "x" 90; sample_token "" (-1)])
          (perform_ocr isspace_latin1 isdigit_latin1 sample_render_error
             (sample_upload "scan.png" "image/png"))
  = outcome (sample_world (lit "Total 42") [sample_token "Total" 90; sample_token "42" (-1)])
            (perform_ocr isspace_latin1 isdigit_latin1 sample_render_error
               (sample_upload "scan.png" "image/png")).
Proof.
  apply (perform_ocr_reads_conf_only isspace_latin1 isdigit_latin1 sample_render_error
           (sample_world (lit "Total 42") [sample_token "Total" 90; sample_token "42" (-1)])
           (sample_world (lit "Total 42") [sample_token "x" 90; sample_token "" (-1)])
           (sample_upload "scan.png" "image/png") sample_image
           (data_of [sample_token "Total" 90; sample_token "42" (-1)])
           (data_of [sample_token "x" 90; sample_token "" (-1)])).
  - reflexivity.
  - intros c Hc. destruct c; [reflexivity | reflexivity | reflexivity | discriminate Hc].
  - reflexivity.
  - reflexivity.
  - reflexivity.
Defined.

(** X22: the health check answers 200 and "healthy", with the version
    of the engine, exactly when the engine gives its version; when that
    call raises it answers 500 with the message itself as the detail,
    not a dict as the two OCR handlers do; it makes no other call. *)
Theorem health_check_answers (w : world) version :
  trace w (health_check version) = []
  /\ (forall v, version = Ok v ->
        outcome w (health_check version)
        = Ok (JSONResponse (VDict [
            ("status", VStr (lit "healthy"));
            ("service", VStr (lit "tesseract-ocr"));
            ("tesseract_version", VStr v)
          ])))
  /\ (forall e, version = Error e ->
        outcome w (health_check version) = Ok (HTTPException 500 (VStr e))
        /\ body (HTTPException 500 (VStr e)) = VDict [("detail", VStr e)]
        /\ field "error" (VStr e) = None)
  /\ (exists r, outcome w (health_check version) = Ok r
                /\ (status r = 200 <-> exists v, version = Ok v)
                /\ (status r = 500 <-> exists e, version = Error e)).
Proof.
  destruct version as [v|e]; cbn.
  - split; [reflexivity|]. split; [now intros ? [= <-]|]. split; [discriminate|].
    eexists. split; [reflexivity|]. cbn.
    split; split; try discriminate; try (intros (? & [=])); eauto.
  - split; [reflexivity|]. split; [discriminate|].
    split; [intros ? [= <-]; repeat split|].
    eexists. split; [reflexivity|]. cbn.
    split; split; try discriminate; try (intros (? & [=])); eauto.
Qed.
